(** * Precision File Search: the classic-search session of [static/main_app.js]

    A shallow embedding of the search session code (section 7 of
    [main_app.js]) together with the persisted history and saved searches,
    and the properties of the specification proved or refuted against it.

    Conventions of the embedding.
    - A JavaScript string is a [string]; its characters are the code units
      below 256.  [String.prototype.trim] also strips the white space code
      points above that range (U+1680, U+2000..U+200A, U+2028, U+2029,
      U+202F, U+205F, U+3000, U+FEFF), which such a string cannot hold.
    - A JavaScript number of the code is a double.  The numbers the size
      fields go through are [NaN], the two infinities and whole numbers:
      [Number].  [parseInt] gives the double nearest to the whole number
      written, ties going to the even significand, and a product is the
      double nearest to the exact product; past the largest double both
      give [Infinity].  (For a text of more than 20 significant digits
      the language lets [parseInt] read the later digits as zeros; the
      nearest double of the number written is taken here.)
    - [localStorage] holds JSON text.  [JSON.stringify] writes [null]
      for a number that is not finite, so [JSON.parse (JSON.stringify v)]
      is [v] with [null] in the place of such numbers ([json_request]);
      strings, booleans, finite numbers, [null], arrays and plain objects
      come back as they were.  A stored entry is kept as the value that
      was written, a read gives its image under that round trip, and an
      absent key is [None].
    - The DOM is kept as the fields the session code reads and writes.
      A translation entry is taken to be plain text.  Left out: the sound,
      the list drawn from the store by [loadSearchHistory], and
      [populateForm], which only write to the page.  Of the select that
      [loadSavedSearches] fills, the values it offers are kept
      ([select_values]). *)

From Stdlib Require Import ZArith Lia Bool Ascii.
From stdpp Require Import gmap strings list pretty.

(** ** Numbers *)

(** A number of the code: [NaN], [Infinity] or [-Infinity], or a whole
    number. *)
Inductive Number :=
| NaN
| Infinity (negative : bool)
| Int (z : Z).

(** The double nearest to the whole number [n], for [0 <= n]: [n] itself
    below 2^53; above, [n] is cut to its leading 53 bits [q], the rest [r]
    deciding whether [q] is kept or raised (a tie goes to the even one);
    a result of 2^1024 or more is [Infinity]. *)
Definition nearest_double (n : Z) : Number :=
  if (n <? 2 ^ 53)%Z then Int n
  else
    let e := (Z.log2 n - 52)%Z in
    let q := (n / 2 ^ e)%Z in
    let r := (n mod 2 ^ e)%Z in
    let half := (2 ^ (e - 1))%Z in
    let q' := if (r <? half)%Z then q
              else if (half <? r)%Z then (q + 1)%Z
              else if Z.even q then q else (q + 1)%Z in
    if (2 ^ 1024 <=? q' * 2 ^ e)%Z then Infinity false else Int (q' * 2 ^ e)%Z.

(** [-x] *)
Definition negate (x : Number) : Number :=
  match x with
  | NaN => NaN
  | Infinity negative => Infinity (negb negative)
  | Int z => Int (- z)%Z
  end.

(** [!x]: true for [NaN] and for zero. *)
Definition not_number (x : Number) : bool :=
  match x with
  | NaN => true
  | Infinity _ => false
  | Int z => (z =? 0)%Z
  end.

(** [x <= 0]: false for [NaN]. *)
Definition le_zero (x : Number) : bool :=
  match x with
  | NaN => false
  | Infinity negative => negative
  | Int z => (z <=? 0)%Z
  end.

(** [x * m] for a whole number [0 < m]. *)
Definition times (x : Number) (m : Z) : Number :=
  match x with
  | NaN => NaN
  | Infinity negative => Infinity negative
  | Int z =>
      if (z <? 0)%Z then negate (nearest_double (- z * m)%Z)
      else nearest_double (z * m)%Z
  end.

(** ** Strings *)

Module Js.

(** The white space and line terminator code units below 256 that
    [trim] and [parseInt] skip: TAB, LF, VT, FF, CR, SP and NBSP. *)
Definition is_space (c : ascii) : bool :=
  match c with
  | "009" | "010" | "011" | "012" | "013" | " " | "160" => true
  | _ => false
  end%char.

Definition is_comma (c : ascii) : bool :=
  match c with "," => true | _ => false end%char.

Fixpoint trimStart (s : string) : string :=
  match s with
  | EmptyString => EmptyString
  | String c r => if is_space c then trimStart r else s
  end.

Fixpoint trimEnd (s : string) : string :=
  match s with
  | EmptyString => EmptyString
  | String c r =>
      match trimEnd r with
      | EmptyString => if is_space c then EmptyString else String c EmptyString
      | r' => String c r'
      end
  end.

(** [s.trim()] *)
Definition trim (s : string) : string := trimEnd (trimStart s).

(** [s.split(',')]: the pieces between the commas; the empty string has
    the one piece [""]. *)
Fixpoint split_comma (s : string) : list string :=
  match s with
  | EmptyString => [EmptyString]
  | String c r =>
      if is_comma c then EmptyString :: split_comma r
      else match split_comma r with
           | p :: ps => String c p :: ps
           | [] => [String c EmptyString]
           end
  end.

(** [a.join(sep)] *)
Fixpoint join (sep : string) (l : list string) : string :=
  match l with
  | [] => EmptyString
  | [x] => x
  | x :: r => x +:+ sep +:+ join sep r
  end.

(** [Boolean(s)] on a string: false exactly for the empty string. *)
Definition truthy (s : string) : bool :=
  match s with EmptyString => false | _ => true end.

(** [s.startsWith('>')] *)
Definition startsWithGt (s : string) : bool :=
  match s with String ">" _ => true | _ => false end.

Definition first_char (s : string) : option ascii :=
  match s with EmptyString => None | String c _ => Some c end.

Fixpoint last_char (s : string) : option ascii :=
  match s with
  | EmptyString => None
  | String c EmptyString => Some c
  | String _ r => last_char r
  end.

Fixpoint mem_char (c : ascii) (s : string) : bool :=
  match s with
  | EmptyString => false
  | String d r => if Ascii.eqb c d then true else mem_char c r
  end.

(** The value of a decimal digit. *)
Definition digit (c : ascii) : option Z := Z.of_nat <$> Ascii.is_nat c.

(** The longest prefix of decimal digits, read from the accumulator
    [acc]; [None] when [s] has no leading digit and [seen] is false. *)
Fixpoint digits (seen : bool) (acc : Z) (s : string) : option Z :=
  match s with
  | EmptyString => if seen then Some acc else None
  | String c r =>
      match digit c with
      | Some d => digits true (10 * acc + d)%Z r
      | None => if seen then Some acc else None
      end
  end.

(** The number for the whole number that [digits] read, if any. *)
Definition number_of (n : option Z) : Number :=
  match n with
  | Some n => nearest_double n
  | None => NaN
  end.

(** [parseInt(s, 10)]: leading white space skipped, an optional sign,
    then the longest run of digits, as a number; [NaN] when there is no
    digit. *)
Definition parseInt (s : string) : Number :=
  match trimStart s with
  | String "-" r => negate (number_of (digits false 0%Z r))
  | String "+" r => number_of (digits false 0%Z r)
  | r => number_of (digits false 0%Z r)
  end.

End Js.

(** ** The search request *)

Inductive SizeUnit := KB | MB | GB.

(** The object literal returned by [buildSearchPayload]. *)
Record SearchRequest := {
  search_path : string;
  keywords : list string;
  search_type : string;
  excluded_folders : list string;
  file_extensions : list string;
  include_dot_folders : bool;
  case_sensitive : bool;
  use_regex : bool;
  file_category : string;
  min_size : option Number;
  max_size : option Number
}.

(** The form controls [buildSearchPayload] reads, by element id. *)
Record Form := {
  f_search_path : string;
  f_keywords : string;
  f_search_type : string;
  f_excluded_folders : string;
  f_file_extensions : string;
  f_include_dot_folders : bool;
  f_case_sensitive : bool;
  f_use_regex : bool;
  f_file_category : string;
  f_min_size_value : string;
  f_min_size_unit : SizeUnit;
  f_max_size_value : string;
  f_max_size_unit : SizeUnit
}.

(** [const multipliers = { 'KB': 1024, 'MB': 1024**2, 'GB': 1024**3 }] *)
Definition multipliers (u : SizeUnit) : Z :=
  match u with
  | KB => 1024
  | MB => 1024 ^ 2
  | GB => 1024 ^ 3
  end%Z.

(** [if (!value || value <= 0) return null; return value * multipliers[unit]];
    [None] is [null]. *)
Definition convertSizeToBytes (value : Number) (unit : SizeUnit) : option Number :=
  if not_number value || le_zero value then None
  else Some (times value (multipliers unit)).

(** [raw.split(',').map(k => k.trim()).filter(Boolean)] *)
Definition parse_list (raw : string) : list string :=
  List.filter Js.truthy (List.map Js.trim (Js.split_comma raw)).

(** A size as [JSON.stringify] and [JSON.parse] give it back: [null] for a
    number that is not finite. *)
Definition json_size (size : option Number) : option Number :=
  match size with
  | Some (Int z) => Some (Int z)
  | _ => None
  end.

(** [JSON.parse (JSON.stringify payload)] *)
Definition json_request (payload : SearchRequest) : SearchRequest :=
  {| search_path := search_path payload;
     keywords := keywords payload;
     search_type := search_type payload;
     excluded_folders := excluded_folders payload;
     file_extensions := file_extensions payload;
     include_dot_folders := include_dot_folders payload;
     case_sensitive := case_sensitive payload;
     use_regex := use_regex payload;
     file_category := file_category payload;
     min_size := json_size (min_size payload);
     max_size := json_size (max_size payload) |}.

Definition buildSearchPayload (f : Form) : SearchRequest :=
  let minSizeValue := Js.parseInt (f_min_size_value f) in
  let maxSizeValue := Js.parseInt (f_max_size_value f) in
  {| search_path := f_search_path f;
     keywords := parse_list (f_keywords f);
     search_type := f_search_type f;
     excluded_folders := parse_list (f_excluded_folders f);
     file_extensions := parse_list (f_file_extensions f);
     include_dot_folders := f_include_dot_folders f;
     case_sensitive := f_case_sensitive f;
     use_regex := f_use_regex f;
     file_category := f_file_category f;
     min_size := convertSizeToBytes minSizeValue (f_min_size_unit f);
     max_size := convertSizeToBytes maxSizeValue (f_max_size_unit f) |}.

(** ** HTML text *)

Module Html.

(** The double quote and the line feed. *)
Definition dq : string := String "034"%char EmptyString.
Definition nl : string := String "010"%char EmptyString.

(** [escapeHTML(str)]: [p.textContent = str; return p.innerHTML].  The
    paragraph then has the single text node [str], and [innerHTML]
    serialises a text node by the HTML standard's string escaping:
    [&], [<], [>] and the no-break space become [&amp;], [&lt;], [&gt;]
    and [&nbsp;]; every other character is copied. *)
Definition escape_char (c : ascii) : string :=
  match c with
  | "&"%char => "&amp;"
  | "<"%char => "&lt;"
  | ">"%char => "&gt;"
  | "160"%char => "&nbsp;"
  | _ => String c EmptyString
  end.

Fixpoint escapeHTML (str : string) : string :=
  match str with
  | EmptyString => EmptyString
  | String c r => escape_char c +:+ escapeHTML r
  end.

(** The four character references [escapeHTML] writes. *)
Definition entities : list string := ["amp;"; "lt;"; "gt;"; "nbsp;"].

(** Every [&] of [s] starts one of the character references above. *)
Fixpoint amp_escaped (s : string) : bool :=
  match s with
  | EmptyString => true
  | String c r =>
      (if Ascii.eqb c "&"%char
       then existsb (fun e => String.prefix e r) entities else true)
      && amp_escaped r
  end.

(** Number of occurrences of a character. *)
Fixpoint count_char (c : ascii) (s : string) : nat :=
  match s with
  | EmptyString => 0
  | String d r => (if Ascii.eqb c d then 1 else 0) + count_char c r
  end.

(** The markup [appendSingleResult] assigns to the [innerHTML] of a new
    result item. *)
Definition result_item_html (path : string) : string :=
  nl +:+ "        <span class=" +:+ dq +:+ "result-path" +:+ dq +:+ ">"
    +:+ escapeHTML path +:+ "</span>"
    +:+ nl +:+ "        <div class=" +:+ dq +:+ "result-actions" +:+ dq +:+ ">"
    +:+ nl +:+ "            <i class=" +:+ dq
    +:+ "fas fa-folder-open action-btn" +:+ dq
    +:+ " data-path=" +:+ dq +:+ escapeHTML path +:+ dq
    +:+ " data-action=" +:+ dq +:+ "folder" +:+ dq
    +:+ " title=" +:+ dq +:+ "Open Containing Folder" +:+ dq +:+ "></i>"
    +:+ nl +:+ "            <i class=" +:+ dq
    +:+ "fas fa-file-alt action-btn" +:+ dq
    +:+ " data-path=" +:+ dq +:+ escapeHTML path +:+ dq
    +:+ " data-action=" +:+ dq +:+ "file" +:+ dq
    +:+ " title=" +:+ dq +:+ "Open File" +:+ dq +:+ "></i>"
    +:+ nl +:+ "        </div>".

(** The text of a result item: what is left of its markup between the
    tags. *)
Definition result_item_text (path : string) : string :=
  nl +:+ "        " +:+ path
    +:+ nl +:+ "        "
    +:+ nl +:+ "            "
    +:+ nl +:+ "            "
    +:+ nl +:+ "        ".

End Html.

(** ** The transport *)

(** [WebSocket.readyState] *)
Inductive ReadyState := CONNECTING | OPEN | CLOSING | CLOSED.

Global Instance ReadyState_eq_dec : EqDecision ReadyState.
Proof. solve_decision. Defined.

(** What the client sends: [{ type: "start_search", payload }], the object
    given to [JSON.stringify]. *)
Inductive Command := StartSearch (payload : SearchRequest).

(** What the server sends, by the [type] of the decoded message; [Other]
    stands for every type the handler has no branch for. *)
Inductive Message :=
| Config (file_categories : list string)
| Error (message : string)
| ScanStart (task_id : string)
| ItemFound (path : string)
| ScanProgress (scanned found : Z)
| ScanComplete (results : list string) (summary : string)
| Other.

(** A [WebSocket] created by [startSearch]: its ready state, the [payload]
    its [onopen] closure holds, and what has been sent on it. *)
Record Socket := {
  readyState : ReadyState;
  so_payload : SearchRequest;
  so_sent : list Command
}.

(** ** The persisted store *)

(** The two [localStorage] keys of the session code, each with the value
    last given to [JSON.stringify] for it; [None] is an absent key.  A
    saved-search object is a finite map from its own property names to
    requests. *)
Record LocalStorage := {
  savedSearches : option (gmap string SearchRequest);
  searchHistory : option (list SearchRequest)
}.

Definition MAX_HISTORY : nat := 15.

(** ** The page *)

(** Classes and attributes of the controls the session code toggles. *)
Record Controls := {
  searchFormHidden : bool;
  scanControlsHidden : bool;
  statusSectionHidden : bool;
  resultsSectionHidden : bool;
  exportButtonHidden : bool;
  stopButtonHidden : bool;
  stopButtonDisabled : bool;
  stopButtonLabel : string;
  newSearchButtonHidden : bool
}.

(** Module variables, the DOM nodes they point to, and the store.
    - [sockets]: every [WebSocket] made by [startSearch], oldest first; a
      socket is named by its position, and [ws] is the variable [ws].
    - [logDiv]: the [innerHTML] of each child of the log, in order;
      [logProgressElement] is the position of the progress line in it.
    - [resultsText], [resultsItems]: the children of [resultsDiv], a text
      put there through [innerHTML] followed by the result items, each
      kept as the path it was made from.
    - [awaitingData], [terminateScan]: the two entries of
      [currentTranslations] the session code reads. *)
Record State := {
  sockets : list Socket;
  ws : option nat;
  logProgressElement : option nat;
  searchResults : list string;
  logDiv : list string;
  resultsText : string;
  resultsItems : list string;
  controls : Controls;
  fileCategoryOptions : list string;
  storage : LocalStorage;
  awaitingData : option string;
  terminateScan : option string
}.

Definition set_sockets (v : list Socket) (s : State) : State :=
  {| sockets := v; ws := ws s; logProgressElement := logProgressElement s;
     searchResults := searchResults s; logDiv := logDiv s;
     resultsText := resultsText s; resultsItems := resultsItems s;
     controls := controls s; fileCategoryOptions := fileCategoryOptions s;
     storage := storage s; awaitingData := awaitingData s;
     terminateScan := terminateScan s |}.

Definition set_ws (v : option nat) (s : State) : State :=
  {| sockets := sockets s; ws := v; logProgressElement := logProgressElement s;
     searchResults := searchResults s; logDiv := logDiv s;
     resultsText := resultsText s; resultsItems := resultsItems s;
     controls := controls s; fileCategoryOptions := fileCategoryOptions s;
     storage := storage s; awaitingData := awaitingData s;
     terminateScan := terminateScan s |}.

Definition set_logProgressElement (v : option nat) (s : State) : State :=
  {| sockets := sockets s; ws := ws s; logProgressElement := v;
     searchResults := searchResults s; logDiv := logDiv s;
     resultsText := resultsText s; resultsItems := resultsItems s;
     controls := controls s; fileCategoryOptions := fileCategoryOptions s;
     storage := storage s; awaitingData := awaitingData s;
     terminateScan := terminateScan s |}.

Definition set_searchResults (v : list string) (s : State) : State :=
  {| sockets := sockets s; ws := ws s; logProgressElement := logProgressElement s;
     searchResults := v; logDiv := logDiv s;
     resultsText := resultsText s; resultsItems := resultsItems s;
     controls := controls s; fileCategoryOptions := fileCategoryOptions s;
     storage := storage s; awaitingData := awaitingData s;
     terminateScan := terminateScan s |}.

Definition set_logDiv (v : list string) (s : State) : State :=
  {| sockets := sockets s; ws := ws s; logProgressElement := logProgressElement s;
     searchResults := searchResults s; logDiv := v;
     resultsText := resultsText s; resultsItems := resultsItems s;
     controls := controls s; fileCategoryOptions := fileCategoryOptions s;
     storage := storage s; awaitingData := awaitingData s;
     terminateScan := terminateScan s |}.

(** Replaces the children of [resultsDiv]. *)
Definition set_results (text : string) (items : list string) (s : State) : State :=
  {| sockets := sockets s; ws := ws s; logProgressElement := logProgressElement s;
     searchResults := searchResults s; logDiv := logDiv s;
     resultsText := text; resultsItems := items;
     controls := controls s; fileCategoryOptions := fileCategoryOptions s;
     storage := storage s; awaitingData := awaitingData s;
     terminateScan := terminateScan s |}.

Definition set_controls (v : Controls) (s : State) : State :=
  {| sockets := sockets s; ws := ws s; logProgressElement := logProgressElement s;
     searchResults := searchResults s; logDiv := logDiv s;
     resultsText := resultsText s; resultsItems := resultsItems s;
     controls := v; fileCategoryOptions := fileCategoryOptions s;
     storage := storage s; awaitingData := awaitingData s;
     terminateScan := terminateScan s |}.

Definition set_fileCategoryOptions (v : list string) (s : State) : State :=
  {| sockets := sockets s; ws := ws s; logProgressElement := logProgressElement s;
     searchResults := searchResults s; logDiv := logDiv s;
     resultsText := resultsText s; resultsItems := resultsItems s;
     controls := controls s; fileCategoryOptions := v;
     storage := storage s; awaitingData := awaitingData s;
     terminateScan := terminateScan s |}.

Definition set_storage (v : LocalStorage) (s : State) : State :=
  {| sockets := sockets s; ws := ws s; logProgressElement := logProgressElement s;
     searchResults := searchResults s; logDiv := logDiv s;
     resultsText := resultsText s; resultsItems := resultsItems s;
     controls := controls s; fileCategoryOptions := fileCategoryOptions s;
     storage := v; awaitingData := awaitingData s;
     terminateScan := terminateScan s |}.

(** ** The log and the result list *)

(** [a || b] on a translation entry: the default when the entry is absent
    or empty. *)
Definition or_default (o : option string) (default : string) : string :=
  match o with
  | Some t => if Js.truthy t then t else default
  | None => default
  end.

Definition appendLog (html : string) (clear : bool) (s : State) : State :=
  let s1 := if clear then set_logProgressElement None (set_logDiv [] s) else s in
  set_logDiv (logDiv s1 ++ [html]) s1.

Definition progress_html (scanned found : Z) : string :=
  "<div>> SCANNING... [ITEMS: " +:+ pretty scanned +:+ " | MATCHES: "
    +:+ pretty found +:+ "]</div>".

(** The progress line is created once and then overwritten in place. *)
Definition updateScanProgress (scanned found : Z) (s : State) : State :=
  let s1 :=
    match logProgressElement s with
    | None => set_logProgressElement (Some (length (logDiv s)))
                (set_logDiv (logDiv s ++ [EmptyString]) s)
    | Some _ => s
    end in
  match logProgressElement s1 with
  | Some i => set_logDiv (<[i := progress_html scanned found]> (logDiv s1)) s1
  | None => s1
  end.

(** [resultsDiv.textContent] *)
Definition resultsTextContent (s : State) : string :=
  resultsText s +:+ Js.join EmptyString (Html.result_item_text <$> resultsItems s).

Definition appendSingleResult (path : string) (s : State) : State :=
  let s1 := if Js.startsWithGt (resultsTextContent s)
            then set_results EmptyString [] s else s in
  set_results (resultsText s1) (resultsItems s1 ++ [path]) s1.

Definition show_export (c : Controls) : Controls :=
  {| searchFormHidden := searchFormHidden c;
     scanControlsHidden := scanControlsHidden c;
     statusSectionHidden := statusSectionHidden c;
     resultsSectionHidden := resultsSectionHidden c;
     exportButtonHidden := false;
     stopButtonHidden := stopButtonHidden c;
     stopButtonDisabled := stopButtonDisabled c;
     stopButtonLabel := stopButtonLabel c;
     newSearchButtonHidden := newSearchButtonHidden c |}.

Definition renderResults (results : list string) (s : State) : State :=
  let s1 := set_results EmptyString [] s in
  match results with
  | _ :: _ =>
      let s2 := foldl (fun acc path => appendSingleResult path acc) s1 results in
      set_controls (show_export (controls s2)) s2
  | [] =>
      if Js.startsWithGt (resultsTextContent s1)
      then set_results "> NO MATCHING ITEMS FOUND." [] s1 else s1
  end.

Definition resetUIBeforeSearch (s : State) : State :=
  let s1 := set_searchResults [] s in
  let s2 := set_results (or_default (awaitingData s1) "> AWAITING DATA...") [] s1 in
  set_controls
    {| searchFormHidden := true;
       scanControlsHidden := false;
       statusSectionHidden := false;
       resultsSectionHidden := false;
       exportButtonHidden := true;
       stopButtonHidden := false;
       stopButtonDisabled := false;
       stopButtonLabel := or_default (terminateScan s2) "TERMINATE SCAN";
       newSearchButtonHidden := true |} s2.

Definition resetUIForNewSearch (s : State) : State :=
  let c := controls s in
  let s1 := set_controls
    {| searchFormHidden := false;
       scanControlsHidden := true;
       statusSectionHidden := true;
       resultsSectionHidden := true;
       exportButtonHidden := true;
       stopButtonHidden := stopButtonHidden c;
       stopButtonDisabled := stopButtonDisabled c;
       stopButtonLabel := stopButtonLabel c;
       newSearchButtonHidden := newSearchButtonHidden c |} s in
  set_logProgressElement None (set_results EmptyString [] (set_logDiv [] s1)).

(** ** The channel *)

Definition set_readyState (r : ReadyState) (so : Socket) : Socket :=
  {| readyState := r; so_payload := so_payload so; so_sent := so_sent so |}.

Definition push_sent (c : Command) (so : Socket) : Socket :=
  {| readyState := readyState so; so_payload := so_payload so;
     so_sent := so_sent so ++ [c] |}.

(** The socket the variable [ws] points to, when there is one. *)
Definition current (s : State) : option Socket :=
  i ← ws s; sockets s !! i.

(** [if (ws && ws.readyState === WebSocket.OPEN) ws.close()]: [close()]
    takes an open socket to [CLOSING]. *)
Definition closeIfOpen (s : State) : State :=
  match ws s with
  | Some i =>
      match sockets s !! i with
      | Some so =>
          if decide (readyState so = OPEN)
          then set_sockets (<[i := set_readyState CLOSING so]> (sockets s)) s
          else s
      | None => s
      end
  | None => s
  end.

(** [ws.send(data)]: queued on an open socket, an exception while the
    socket is connecting (it ends the calling handler, whose last
    statement it is), and dropped once the socket is closing or closed. *)
Definition ws_send (c : Command) (s : State) : State :=
  match ws s with
  | Some i =>
      match sockets s !! i with
      | Some so =>
          if decide (readyState so = OPEN)
          then set_sockets (<[i := push_sent c so]> (sockets s)) s
          else s
      | None => s
      end
  | None => s
  end.

Definition error_html (message : string) : string :=
  "<span class=" +:+ Html.dq +:+ "status-error" +:+ Html.dq +:+ ">> ERROR: "
    +:+ message +:+ "</span>".

Definition complete_html (summary : string) : string :=
  "<span class=" +:+ Html.dq +:+ "status-complete" +:+ Html.dq +:+ ">> "
    +:+ summary +:+ "</span>".

Definition handleWebSocketMessage (data : Message) (s : State) : State :=
  match data with
  | Config file_categories =>
      match file_categories with
      | _ :: _ => set_fileCategoryOptions file_categories s
      | [] => s
      end
  | Error message => closeIfOpen (appendLog (error_html message) false s)
  | ScanStart task_id =>
      appendLog ("> TASK ID " +:+ task_id +:+ " INITIATED.") false s
  | ItemFound path => appendSingleResult path s
  | ScanProgress scanned found => updateScanProgress scanned found s
  | ScanComplete results summary =>
      let s1 := appendLog (complete_html summary) false
                  (set_logProgressElement None s) in
      renderResults results (set_searchResults results s1)
  | Other => s
  end.

Definition disable_stop (c : Controls) : Controls :=
  {| searchFormHidden := searchFormHidden c;
     scanControlsHidden := scanControlsHidden c;
     statusSectionHidden := statusSectionHidden c;
     resultsSectionHidden := resultsSectionHidden c;
     exportButtonHidden := exportButtonHidden c;
     stopButtonHidden := stopButtonHidden c;
     stopButtonDisabled := true;
     stopButtonLabel := "TERMINATED";
     newSearchButtonHidden := newSearchButtonHidden c |}.

Definition terminated_html : string :=
  "<span class=" +:+ Html.dq +:+ "status-error" +:+ Html.dq
    +:+ ">> SCAN MANUALLY TERMINATED.</span>".

Definition stopSearch (s : State) : State :=
  let s1 := appendLog terminated_html false (closeIfOpen s) in
  set_controls (disable_stop (controls s1)) s1.

(** ** History and saved searches *)

(** [JSON.parse(localStorage.getItem('searchHistory') || '[]')] *)
Definition history (s : State) : list SearchRequest :=
  json_request <$> default [] (searchHistory (storage s)).

(** [JSON.parse(localStorage.getItem('savedSearches') || '{}')] *)
Definition searches (s : State) : gmap string SearchRequest :=
  json_request <$> default ∅ (savedSearches (storage s)).

Definition store_history (h : list SearchRequest) (s : State) : State :=
  set_storage {| savedSearches := savedSearches (storage s);
                 searchHistory := Some h |} s.

Definition store_searches (m : gmap string SearchRequest) (s : State) : State :=
  set_storage {| savedSearches := Some m;
                 searchHistory := searchHistory (storage s) |} s.

(** [history.unshift(payload); history = history.slice(0, MAX_HISTORY)] *)
Definition addSearchToHistory (payload : SearchRequest) (s : State) : State :=
  store_history (take MAX_HISTORY (payload :: history s)) s.

(** The delete button of history item [index]:
    [history.splice(index, 1)], which leaves the list as it is when
    [index] is past its end. *)
Definition removeFromHistory (index : nat) (s : State) : State :=
  store_history (delete index (history s)) s.

(** A click on history item [index]: the request given to [populateForm]. *)
Definition historyEntry (index : nat) (s : State) : option SearchRequest :=
  history s !! index.

(** [searches[name] = payload] on the object [JSON.parse] returned, as
    [JSON.stringify] then sees it.  The name [__proto__] is the prototype
    accessor of every plain object: unless the object has a property of
    its own by that name, which [JSON.parse] makes when the text has one,
    assigning to it replaces the prototype and adds no property. *)
Definition assign (name : string) (payload : SearchRequest)
    (m : gmap string SearchRequest) : gmap string SearchRequest :=
  if decide (name = "__proto__" /\ m !! name = None) then m
  else <[name := payload]> m.

(** [name] is what [prompt] returned: [None] when the dialog was
    cancelled.  [if (!name) return] leaves on [null] and on the empty
    string. *)
Definition saveCurrentSearch (name : option string) (f : Form) (s : State) : State :=
  match name with
  | None => s
  | Some n =>
      if Js.truthy n
      then store_searches (assign n (buildSearchPayload f) (searches s)) s
      else s
  end.

(** The names every plain object inherits from [Object.prototype]. *)
Definition object_prototype_names : list string :=
  ["constructor"; "__defineGetter__"; "__defineSetter__"; "hasOwnProperty";
   "__lookupGetter__"; "__lookupSetter__"; "isPrototypeOf";
   "propertyIsEnumerable"; "toString"; "valueOf"; "__proto__";
   "toLocaleString"].

(** What [searches[key]] gives: the request of an own property, else a
    member of [Object.prototype] when [key] names one, else [undefined]. *)
Inductive Property :=
| Own (request : SearchRequest)
| Inherited
| Undefined.

(** A name that [<option value="${name}">] carries as it is.  The markup
    is written without escaping the name: a double quote ends the
    attribute, and what follows it is read as more of the tag or of the
    page; an ampersand may begin a character reference; the parser reads
    CR as LF and NUL as U+FFFD. *)
Definition markup_safe (name : string) : bool :=
  negb (Js.mem_char "034"%char name || Js.mem_char "&"%char name
        || Js.mem_char "013"%char name || Js.mem_char "000"%char name).

(** The values [savedSearchesSelect] offers after [loadSavedSearches]:
    one option per saved name, or the one placeholder option with the
    empty value when nothing is saved.  Given for a store whose names are
    all [markup_safe]; with another name the options depend on how the
    parser reads the broken markup, which is not followed here ([None]). *)
Definition select_values (s : State) : option (gset string) :=
  let names := dom (searches s) in
  if forallb markup_safe (elements names)
  then Some (if decide (names = ∅) then {[EmptyString]} else names)
  else None.

(** [searches[savedSearchesSelect.value]], what [loadSelectedSearch] gives
    to [populateForm]; [selected] is the value of the select. *)
Definition loadSelectedSearch (selected : string) (s : State) : Property :=
  match searches s !! selected with
  | Some request => Own request
  | None =>
      if bool_decide (selected ∈ object_prototype_names) then Inherited
      else Undefined
  end.

(** [selected] is the value of the select, [confirmed] the answer to
    [confirm]; [delete searches[name]] removes an own property. *)
Definition deleteSelectedSearch (selected : string) (confirmed : bool) (s : State) : State :=
  if Js.truthy selected && confirmed
  then store_searches (delete selected (searches s)) s
  else s.

(** ** Starting a search *)

Definition new_socket (payload : SearchRequest) : Socket :=
  {| readyState := CONNECTING; so_payload := payload; so_sent := [] |}.

Definition startSearch (f : Form) (s : State) : State :=
  let payload := buildSearchPayload f in
  let s1 := addSearchToHistory payload s in
  set_ws (Some (length (sockets s1)))
    (set_sockets (sockets s1 ++ [new_socket payload]) s1).

Definition searching_html (payload : SearchRequest) : string :=
  "> SEARCHING FOR: " +:+ Html.dq +:+ Js.join ", " (keywords payload) +:+ Html.dq.

(** [ws.onopen] of a socket made with [payload]. *)
Definition onopen (payload : SearchRequest) (s : State) : State :=
  let s1 := resetUIBeforeSearch s in
  let s2 := appendLog (searching_html payload) true s1 in
  let s3 := appendLog ("> TARGET PATH: " +:+ search_path payload) false s2 in
  ws_send (StartSearch payload) s3.

(** [ws.onmessage] *)
Definition onmessage (data : Message) (s : State) : State :=
  handleWebSocketMessage data s.

(** [ws.onerror] *)
Definition onerror (s : State) : State :=
  appendLog ("<span class=" +:+ Html.dq +:+ "status-error" +:+ Html.dq
             +:+ ">> WEBSOCKET ERROR: Connection failed.</span>") false s.

Definition show_new_search (c : Controls) : Controls :=
  {| searchFormHidden := searchFormHidden c;
     scanControlsHidden := scanControlsHidden c;
     statusSectionHidden := statusSectionHidden c;
     resultsSectionHidden := resultsSectionHidden c;
     exportButtonHidden := exportButtonHidden c;
     stopButtonHidden := true;
     stopButtonDisabled := stopButtonDisabled c;
     stopButtonLabel := stopButtonLabel c;
     newSearchButtonHidden := false |}.

(** [ws.onclose] *)
Definition onclose (s : State) : State :=
  let s1 := if scanControlsHidden (controls s) then s
            else set_controls (show_new_search (controls s)) s in
  set_logProgressElement None s1.

(** ** The event loop *)

(** What can happen to the page: the listeners of section 9 of the file
    that concern the session, and the events of the sockets. *)
Inductive Event :=
| Submit (f : Form)
| ClickStop
| ClickNewSearch
| ClickSave (answer : option string) (f : Form)
| ClickDelete (selected : string) (confirmed : bool)
| ClickHistoryDelete (index : nat)
| WsOpen (i : nat)
| WsMessage (i : nat) (data : Message)
| WsClose (i : nat) (failed : bool).

(** One task of the event loop.  The socket events follow the WebSocket
    interface of the platform: a connecting socket opens; a message event
    is fired on a socket only while its ready state is [OPEN] (after
    [close()] the state is [CLOSING] and what arrives is discarded); when
    the connection of a socket ends its state becomes [CLOSED], an error
    event is fired first if the connection failed, and then the close
    event. *)
Definition step (s : State) (e : Event) : State :=
  match e with
  | Submit f => startSearch f s
  | ClickStop => stopSearch s
  | ClickNewSearch => resetUIForNewSearch s
  | ClickSave answer f => saveCurrentSearch answer f s
  | ClickDelete selected confirmed => deleteSelectedSearch selected confirmed s
  | ClickHistoryDelete index => removeFromHistory index s
  | WsOpen i =>
      match sockets s !! i with
      | Some so =>
          if decide (readyState so = CONNECTING)
          then onopen (so_payload so)
                 (set_sockets (<[i := set_readyState OPEN so]> (sockets s)) s)
          else s
      | None => s
      end
  | WsMessage i data =>
      match sockets s !! i with
      | Some so => if decide (readyState so = OPEN) then onmessage data s else s
      | None => s
      end
  | WsClose i failed =>
      match sockets s !! i with
      | Some so =>
          if decide (readyState so = CLOSED) then s
          else
            let s1 := set_sockets (<[i := set_readyState CLOSED so]> (sockets s)) s in
            onclose (if failed then onerror s1 else s1)
      | None => s
      end
  end.

(** Events are handled one at a time, in the order they arrive. *)
Definition run (s : State) (es : list Event) : State := foldl step s es.

(** The session of the current socket, as the page shows it. *)
Definition connecting (s : State) : Prop :=
  exists so, current s = Some so /\ readyState so = CONNECTING.

Definition scanning (s : State) : Prop :=
  exists so, current s = Some so /\ readyState so = OPEN.

(** After [stopSearch]: the channel is no longer open and the stop button
    reads [TERMINATED] and is disabled. *)
Definition cancelled (s : State) : Prop :=
  (forall so, current s = Some so -> readyState so <> OPEN) /\
  stopButtonDisabled (controls s) = true /\
  stopButtonLabel (controls s) = "TERMINATED".

(** An event of socket [i]. *)
Definition event_of_socket (i : nat) (e : Event) : Prop :=
  match e with
  | WsOpen j | WsMessage j _ | WsClose j _ => j = i
  | _ => False
  end.

(** The page before anything has happened: no socket, an empty store, the
    form shown and the scan controls hidden. *)
Definition initial : State :=
  {| sockets := []; ws := None; logProgressElement := None;
     searchResults := []; logDiv := [];
     resultsText := EmptyString; resultsItems := [];
     controls :=
       {| searchFormHidden := false; scanControlsHidden := true;
          statusSectionHidden := true; resultsSectionHidden := true;
          exportButtonHidden := true; stopButtonHidden := false;
          stopButtonDisabled := false; stopButtonLabel := "TERMINATE SCAN";
          newSearchButtonHidden := true |};
     fileCategoryOptions := [];
     storage := {| savedSearches := None; searchHistory := None |};
     awaitingData := None; terminateScan := None |}.

Definition sample_form (kw : string) : Form :=
  {| f_search_path := "C:\data"; f_keywords := kw;
     f_search_type := "file_content";
     f_excluded_folders := "node_modules, .git"; f_file_extensions := ".txt";
     f_include_dot_folders := false; f_case_sensitive := false;
     f_use_regex := false; f_file_category := EmptyString;
     f_min_size_value := "2"; f_min_size_unit := MB;
     f_max_size_value := EmptyString; f_max_size_unit := GB |}.

(** ** Notions used to state the properties *)

(** An entry with no white space at either end. *)
Definition trimmed (e : string) : Prop :=
  (forall c, Js.first_char e = Some c -> Js.is_space c = false) /\
  (forall c, Js.last_char e = Some c -> Js.is_space c = false).

(** A text of white space only. *)
Fixpoint all_space (s : string) : bool :=
  match s with
  | EmptyString => true
  | String c r => Js.is_space c && all_space r
  end.

(** [e] is the piece [p] without the white space around it. *)
Definition stripped (p e : string) : Prop :=
  trimmed e /\
  exists pre post,
    p = pre +:+ e +:+ post /\ all_space pre = true /\ all_space post = true.

(** What the request holds for a comma-separated field [raw]: entries that
    are neither empty nor padded.  They are found by cutting [raw] at its
    commas into [pieces], taking from each piece the text between its
    outer white space, and leaving out the pieces that had nothing else;
    every other piece gives its entry, in the order of the text. *)
Definition clean_list (raw : string) (l : list string) : Prop :=
  Forall (fun e => e <> EmptyString /\ trimmed e) l /\
  exists pieces entries : list string,
    pieces <> [] /\
    Js.join "," pieces = raw /\
    Forall (fun p => Js.mem_char ","%char p = false) pieces /\
    Forall2 stripped pieces entries /\
    l = filter (fun e => e <> EmptyString) entries.

(** Bytes in one unit. *)
Definition unit_bytes (u : SizeUnit) : Z :=
  match u with
  | KB => 1024
  | MB => 1024 * 1024
  | GB => 1024 * 1024 * 1024
  end%Z.

(** The size field for the number [value] read from the form: absent
    unless the number is positive; then that many units in bytes as a
    double, which is the very product as long as it is below 2^53. *)
Definition size_field (value : Number) (unit : SizeUnit) (field : option Number) : Prop :=
  match value with
  | Int n =>
      if decide (0 < n)%Z
      then field = Some (nearest_double (n * unit_bytes unit)) /\
           ((n * unit_bytes unit < 2 ^ 53)%Z ->
            field = Some (Int (n * unit_bytes unit)))
      else field = None
  | Infinity false => field = Some (Infinity false)
  | Infinity true | NaN => field = None
  end.

(** A size that JSON keeps: [null] or a finite number. *)
Definition finite_size (size : option Number) : Prop :=
  match size with
  | Some (Int _) | None => True
  | Some _ => False
  end.

(** A message event. *)
Definition is_ws_message (e : Event) : bool :=
  match e with WsMessage _ _ => true | _ => false end.

(** Socket [i] is the current one and is open. *)
Definition open_on (i : nat) (s : State) : Prop :=
  ws s = Some i /\ exists so, sockets s !! i = Some so /\ readyState so = OPEN.

(** What holds from [stopSearch] on in a session that had no result yet:
    socket [i] is the current one and is closing or closed, nothing is
    captured or shown, and the stop button is spent. *)
Definition stopped_empty (i : nat) (s : State) : Prop :=
  ws s = Some i /\
  (exists so, sockets s !! i = Some so /\
              (readyState so = CLOSING \/ readyState so = CLOSED)) /\
  searchResults s = [] /\ resultsItems s = [] /\
  exportButtonHidden (controls s) = true /\
  stopButtonDisabled (controls s) = true /\
  stopButtonLabel (controls s) = "TERMINATED".

(** ** Notions used to state the further properties *)

(** How far a socket is in its life. *)
Definition rank (r : ReadyState) : nat :=
  match r with CONNECTING => 0 | OPEN => 1 | CLOSING => 2 | CLOSED => 3 end.

(** [so'] is a later state of the socket [so]: not earlier in its life,
    with the same payload, and with what was sent only extended. *)
Definition evolves (so so' : Socket) : Prop :=
  rank (readyState so) <= rank (readyState so') /\
  so_payload so' = so_payload so /\
  so_sent so `prefix_of` so_sent so'.

(** Every socket of [l] is still there in [l'], at the same position and
    in a later state. *)
Definition sockets_evolve (l l' : list Socket) : Prop :=
  forall i so, l !! i = Some so -> exists so', l' !! i = Some so' /\ evolves so so'.

(** The progress line, when there is one, is a line of the log. *)
Definition progress_valid (s : State) : Prop :=
  forall i, logProgressElement s = Some i -> i < length (logDiv s).

(** The events whose listeners write to [localStorage]. *)
Definition writes_store (e : Event) : bool :=
  match e with
  | Submit _ | ClickSave _ _ | ClickDelete _ _ | ClickHistoryDelete _ => true
  | _ => false
  end.

(** The text a character reference of [escapeHTML] stands for: what the
    page shows for an escaped text.  [skip] characters are passed over
    after a reference has been read. *)
Fixpoint unescape_go (skip : nat) (s : string) : string :=
  match s with
  | EmptyString => EmptyString
  | String c r =>
      match skip with
      | S k => unescape_go k r
      | O =>
          if Ascii.eqb c "&"%char then
            if String.prefix "amp;" r then String "&"%char (unescape_go 4 r)
            else if String.prefix "lt;" r then String "<"%char (unescape_go 3 r)
            else if String.prefix "gt;" r then String ">"%char (unescape_go 3 r)
            else if String.prefix "nbsp;" r then String "160"%char (unescape_go 5 r)
            else String c (unescape_go 0 r)
          else String c (unescape_go 0 r)
      end
  end.

Definition unescape (s : string) : string := unescape_go 0 s.

(** The document [exportToHTML] builds from the captured results;
    [reportDate] is the text of the current date. *)
Definition exportToHTML (reportDate : string) (s : State) : string :=
  "<!DOCTYPE html><html><head><title>Search Report</title></head><body><h1>Report</h1><p>Generated: "
    +:+ reportDate +:+ "</p><ul>"
    +:+ Js.join EmptyString
          ((fun file => "<li>" +:+ Html.escapeHTML file +:+ "</li>") <$> searchResults s)
    +:+ "</ul></body></html>".

(** An entry as the request holds it: not empty, not padded, no comma. *)
Definition entry_ok (e : string) : Prop :=
  e <> EmptyString /\ trimmed e /\ Js.mem_char ","%char e = false.

(** A search start. *)
Definition is_submit (e : Event) : bool :=
  match e with Submit _ => true | _ => false end.

(** An [error] message. *)
Definition is_error (data : Message) : bool :=
  match data with Error _ => true | _ => false end.

(** A text of white space and commas only. *)
Fixpoint blank (s : string) : bool :=
  match s with
  | EmptyString => true
  | String c r => (Js.is_space c || Js.is_comma c) && blank r
  end.

(** * Properties *)

(** ** Comma-separated fields *)

Section Strings.

Local Open Scope string_scope.

Lemma truthy_nonempty (s : string) : Js.truthy s = true <-> s <> "".
Proof. destruct s; simpl; split; congruence. Qed.

Lemma trimStart_first (s : string) (c : ascii) :
  Js.first_char (Js.trimStart s) = Some c -> Js.is_space c = false.
Proof.
  induction s as [|d r IH]; simpl; [discriminate|].
  destruct (Js.is_space d) eqn:E; [exact IH|].
  simpl. intros [= <-]. exact E.
Qed.

Lemma trimEnd_first (s : string) (c : ascii) :
  Js.is_space c = false -> Js.first_char s = Some c ->
  Js.first_char (Js.trimEnd s) = Some c.
Proof.
  destruct s as [|d r]; simpl; [discriminate|].
  intros Hc [= ->].
  destruct (Js.trimEnd r); [rewrite Hc|]; reflexivity.
Qed.

Lemma trimEnd_first_inv (s : string) (c : ascii) :
  Js.first_char (Js.trimEnd s) = Some c -> Js.first_char s = Some c.
Proof.
  destruct s as [|d r]; simpl; [discriminate|].
  destruct (Js.trimEnd r); [destruct (Js.is_space d)|]; simpl; congruence.
Qed.

Lemma trimEnd_last (s : string) (c : ascii) :
  Js.last_char (Js.trimEnd s) = Some c -> Js.is_space c = false.
Proof.
  induction s as [|d r IH]; simpl; [discriminate|].
  destruct (Js.trimEnd r) as [|e t] eqn:E.
  - destruct (Js.is_space d) eqn:Ed; simpl; [discriminate|].
    intros [= <-]. exact Ed.
  - intros H. apply IH. exact H.
Qed.

(** The pieces of [split(',')] are never none, hold no comma, and give
    the text back when joined with commas. *)
Lemma split_comma_nonnil (s : string) : Js.split_comma s <> [].
Proof.
  induction s as [|c r IH]; simpl; [discriminate|].
  destruct (Js.is_comma c); [discriminate|].
  destruct (Js.split_comma r); [contradiction|discriminate].
Qed.

Lemma split_comma_join (s : string) : Js.join "," (Js.split_comma s) = s.
Proof.
  induction s as [|c r IH]; simpl; [reflexivity|].
  destruct (Js.is_comma c) eqn:Ec.
  - assert (c = ","%char) as ->.
    { destruct c as [[] [] [] [] [] [] [] []]; simpl in Ec; congruence. }
    pose proof (split_comma_nonnil r) as Hne.
    destruct (Js.split_comma r) as [|p ps] eqn:E; [contradiction|].
    change (Js.join "," ("" :: p :: ps)) with ("" +:+ "," +:+ Js.join "," (p :: ps)).
    rewrite IH. reflexivity.
  - pose proof (split_comma_nonnil r) as Hne.
    destruct (Js.split_comma r) as [|p ps] eqn:E; [contradiction|].
    destruct ps as [|q qs].
    + simpl in *. congruence.
    + change (Js.join "," (String c p :: q :: qs))
        with (String c p +:+ "," +:+ Js.join "," (q :: qs)).
      change (Js.join "," (p :: q :: qs))
        with (p +:+ "," +:+ Js.join "," (q :: qs)) in IH.
      rewrite <- IH. reflexivity.
Qed.

Lemma split_comma_no_comma (s p : string) :
  p ∈ Js.split_comma s -> Js.mem_char ","%char p = false.
Proof.
  revert p. induction s as [|c r IH]; simpl; intros p Hp.
  - apply list_elem_of_singleton in Hp as ->. reflexivity.
  - destruct (Js.is_comma c) eqn:Ec.
    + apply elem_of_cons in Hp as [->|Hp]; [reflexivity|]. by apply IH.
    + pose proof (split_comma_nonnil r) as Hne.
      destruct (Js.split_comma r) as [|q qs] eqn:E; [contradiction|].
      apply elem_of_cons in Hp as [->|Hp].
      * cbn [Js.mem_char].
        destruct (Ascii.eqb_spec ","%char c) as [<-|_]; [discriminate|].
        apply IH. left.
      * apply IH. by right.
Qed.

(** [trim] takes white space off the two ends and nothing else. *)
Lemma trimStart_split (s : string) :
  exists pre, s = pre +:+ Js.trimStart s /\ all_space pre = true.
Proof.
  induction s as [|c r (pre & Hr & Hp)]; [by exists ""|].
  simpl. destruct (Js.is_space c) eqn:Ec.
  - exists (String c pre). split; [|by simpl; rewrite Ec].
    change (String c pre +:+ Js.trimStart r) with (String c (pre +:+ Js.trimStart r)).
    by rewrite <- Hr.
  - by exists "".
Qed.

Lemma trimEnd_split (s : string) :
  exists post, s = Js.trimEnd s +:+ post /\ all_space post = true.
Proof.
  induction s as [|c r (post & Hr & Hp)]; [by exists ""|].
  simpl. destruct (Js.trimEnd r) as [|d t] eqn:Er.
  - destruct (Js.is_space c) eqn:Ec.
    + exists (String c r). split; [done|]. simpl. rewrite Ec. simpl.
      change ("" +:+ post) with post in Hr. by rewrite Hr.
    + exists post. split; [|done]. change ("" +:+ post) with post in Hr.
      by rewrite Hr.
  - exists post. split; [|done].
    change (String c (String d t) +:+ post) with (String c (String d t +:+ post)).
    by rewrite <- Hr.
Qed.

Lemma trimStart_id (s : string) :
  (forall c, Js.first_char s = Some c -> Js.is_space c = false) ->
  Js.trimStart s = s.
Proof. destruct s as [|c r]; [done|]. intros H. simpl. by rewrite (H c). Qed.

Lemma trimEnd_id (s : string) :
  (forall c, Js.last_char s = Some c -> Js.is_space c = false) ->
  Js.trimEnd s = s.
Proof.
  induction s as [|c r IH]; [done|]. intros H. simpl.
  destruct r as [|d t].
  - simpl. by rewrite (H c).
  - rewrite IH; [done|]. intros e He. by apply H.
Qed.

Lemma trim_id (e : string) : trimmed e -> Js.trim e = e.
Proof.
  intros [Hf Hl]. unfold Js.trim. rewrite trimStart_id by done. by apply trimEnd_id.
Qed.

Lemma trim_split (s : string) :
  exists pre post, s = pre +:+ Js.trim s +:+ post /\
                   all_space pre = true /\ all_space post = true.
Proof.
  destruct (trimStart_split s) as (pre & Hs & Hpre).
  destruct (trimEnd_split (Js.trimStart s)) as (post & Ht & Hpost).
  exists pre, post. unfold Js.trim. by rewrite <- Ht.
Qed.

End Strings.

Lemma trim_trimmed (p : string) : trimmed (Js.trim p).
Proof.
  split; intros c H.
  - apply trimEnd_first_inv in H. by apply trimStart_first in H.
  - by apply trimEnd_last in H.
Qed.

Lemma parse_list_filter (raw : string) :
  parse_list raw = filter (fun e => e <> EmptyString) (Js.trim <$> Js.split_comma raw).
Proof.
  unfold parse_list. change (List.map Js.trim) with (fmap (M:=list) Js.trim).
  induction (Js.trim <$> Js.split_comma raw) as [|e l IH]; [reflexivity|].
  destruct e; simpl.
  - rewrite filter_cons_False by (intros H; by apply H). exact IH.
  - rewrite filter_cons_True by discriminate. by rewrite IH.
Qed.

Lemma trim_stripped (p : string) : stripped p (Js.trim p).
Proof. split; [apply trim_trimmed|apply trim_split]. Qed.

Lemma parse_list_clean (raw : string) : clean_list raw (parse_list raw).
Proof.
  rewrite parse_list_filter. split.
  - apply Forall_forall. intros e He.
    apply list_elem_of_filter in He as [Hne He].
    apply list_elem_of_fmap in He as (p & -> & _).
    split; [exact Hne|apply trim_trimmed].
  - exists (Js.split_comma raw), (Js.trim <$> Js.split_comma raw).
    split; [apply split_comma_nonnil|].
    split; [apply split_comma_join|].
    split; [apply Forall_forall; intros p Hp; by apply (split_comma_no_comma raw)|].
    split; [|reflexivity].
    apply Forall2_fmap_r, Forall_Forall2_diag, Forall_forall.
    intros p _. apply trim_stripped.
Qed.

(** [C6] For every raw text of the keywords, file-extensions and
    excluded-folders fields, the list in the built request has no empty
    entry and no entry with white space at its start or end; it holds,
    in the order of the text, what each piece between two commas has
    between its outer white space, for every piece that has anything
    there.  So the text [ a , ,b,, c d ,] gives [a], [b], [c d]. *)
Theorem C6_lists_clean_and_ordered (f : Form) :
  clean_list (f_keywords f) (keywords (buildSearchPayload f)) /\
  clean_list (f_file_extensions f) (file_extensions (buildSearchPayload f)) /\
  clean_list (f_excluded_folders f) (excluded_folders (buildSearchPayload f)) /\
  keywords (buildSearchPayload (sample_form " a , ,b,, c d ,")) = ["a"; "b"; "c d"].
Proof.
  split; [apply parse_list_clean|].
  split; [apply parse_list_clean|].
  split; [apply parse_list_clean|reflexivity].
Qed.

(** ** Size filters *)

Section ParseInt.

Local Open Scope string_scope.

Lemma digit_pretty_char (k : N) :
  (k < 10)%N -> Js.digit (pretty_N_char k) = Some (Z.of_N k).
Proof.
  intros Hk.
  assert (k = 0 \/ k = 1 \/ k = 2 \/ k = 3 \/ k = 4 \/ k = 5 \/ k = 6 \/ k = 7
          \/ k = 8 \/ k = 9)%N as H by lia.
  by repeat (destruct H as [->|H]); try subst k.
Qed.

Lemma pretty_N_go_app (x : N) (s rest : string) :
  pretty_N_go x s +:+ rest = pretty_N_go x (s +:+ rest).
Proof.
  revert s. induction (N.lt_wf_0 x) as [x _ IH]; intros s.
  destruct (decide (x = 0)%N) as [->|Hx]; [by rewrite !pretty_N_go_0|].
  rewrite (pretty_N_go_step x s), (pretty_N_go_step x (s +:+ rest)) by lia.
  rewrite IH by (apply N.div_lt; lia). reflexivity.
Qed.

Lemma digits_pretty_N_go (x : N) (s : string) (seen : bool) :
  (0 < x)%N ->
  Js.digits seen 0 (pretty_N_go x s) = Js.digits true (Z.of_N x) s.
Proof.
  revert s seen. induction (N.lt_wf_0 x) as [x _ IH]; intros s seen Hx.
  rewrite pretty_N_go_step by done.
  assert (x `mod` 10 < 10)%N as Hm by (apply N.mod_lt; lia).
  destruct (decide (x `div` 10 = 0)%N) as [Hd|Hd].
  - rewrite Hd, pretty_N_go_0. cbn [Js.digits].
    rewrite digit_pretty_char by done. f_equal.
    pose proof (N.div_mod' x 10) as H. rewrite Hd in H. clear IH Hm. lia.
  - rewrite IH by (first [apply N.div_lt; lia | by apply N.neq_0_lt_0]).
    cbn [Js.digits].
    rewrite digit_pretty_char by done. f_equal.
    pose proof (N.div_mod' x 10) as H. clear IH Hm.
    rewrite H at 3. rewrite N2Z.inj_add, N2Z.inj_mul. lia.
Qed.

Lemma pretty_N_go_head (x : N) (s : string) :
  (0 < x)%N ->
  exists c r k, pretty_N_go x s = String c r /\ (k < 10)%N /\ c = pretty_N_char k.
Proof.
  revert s. induction (N.lt_wf_0 x) as [x _ IH]; intros s Hx.
  rewrite pretty_N_go_step by done.
  destruct (decide (x `div` 10 = 0)%N) as [Hd|Hd].
  - rewrite Hd, pretty_N_go_0. eexists _, _, _. split; [done|].
    split; [|done]. apply N.mod_lt. lia.
  - apply IH; [apply N.div_lt; lia|by apply N.neq_0_lt_0].
Qed.

Lemma parseInt_digit_head (c : ascii) (r : string) (k : N) :
  (k < 10)%N -> c = pretty_N_char k ->
  Js.parseInt (String c r) = Js.number_of (Js.digits false 0 (String c r)).
Proof.
  intros Hk ->.
  assert (k = 0 \/ k = 1 \/ k = 2 \/ k = 3 \/ k = 4 \/ k = 5 \/ k = 6 \/ k = 7
          \/ k = 8 \/ k = 9)%N as H by lia.
  by repeat (destruct H as [->|H]); try subst k.
Qed.

Lemma digits_stop (acc : Z) (rest : string) :
  (forall c, Js.first_char rest = Some c -> Js.digit c = None) ->
  Js.digits true acc rest = Some acc.
Proof.
  destruct rest as [|c r]; [done|]. intros H. cbn [Js.digits].
  by rewrite (H c).
Qed.

(** A whole number written in decimal is read back, whatever follows
    it. *)
Lemma digits_pretty (n : N) (rest : string) :
  (forall c, Js.first_char rest = Some c -> Js.digit c = None) ->
  Js.digits false 0 (pretty n +:+ rest) = Some (Z.of_N n).
Proof.
  intros Hrest. unfold pretty, pretty_N. case_decide as Hn.
  - subst n. change ("0" +:+ rest) with (String "0"%char rest).
    change (Js.digits false 0 (String "0"%char rest)) with (Js.digits true 0 rest).
    by apply digits_stop.
  - rewrite pretty_N_go_app, digits_pretty_N_go by lia. by apply digits_stop.
Qed.

Lemma parseInt_pretty (n : N) (rest : string) :
  (forall c, Js.first_char rest = Some c -> Js.digit c = None) ->
  Js.parseInt (pretty n +:+ rest) = nearest_double (Z.of_N n).
Proof.
  intros Hrest.
  transitivity (Js.number_of (Js.digits false 0 (pretty n +:+ rest))).
  - unfold pretty, pretty_N. case_decide as Hn; [reflexivity|].
    rewrite pretty_N_go_app.
    destruct (pretty_N_go_head n ("" +:+ rest)) as (c & r & k & Hc & Hk & ->); [lia|].
    rewrite Hc. by apply (parseInt_digit_head _ r k).
  - by rewrite digits_pretty.
Qed.

End ParseInt.

Lemma nearest_double_small (n : Z) : (n < 2 ^ 53)%Z -> nearest_double n = Int n.
Proof.
  intros H. unfold nearest_double.
  by destruct (Z.ltb_spec n (2 ^ 53)); [|lia].
Qed.

Lemma multipliers_unit_bytes (u : SizeUnit) : multipliers u = unit_bytes u.
Proof. by destruct u. Qed.

Lemma convertSizeToBytes_field (value : Number) (unit : SizeUnit) :
  size_field value unit (convertSizeToBytes value unit).
Proof.
  destruct value as [|[]|n]; try reflexivity.
  unfold size_field, convertSizeToBytes. cbn [not_number le_zero times].
  destruct (decide (0 < n)%Z) as [Hn|Hn].
  - destruct (Z.eqb_spec n 0) as [|_]; [lia|].
    destruct (Z.leb_spec n 0) as [|_]; [lia|].
    destruct (Z.ltb_spec n 0) as [|_]; [lia|].
    cbn [orb]. rewrite multipliers_unit_bytes.
    split; [reflexivity|]. intros Hs. by rewrite nearest_double_small.
  - destruct (Z.eqb_spec n 0) as [|_]; [reflexivity|].
    destruct (Z.leb_spec n 0) as [_|]; [reflexivity|lia].
Qed.

Lemma unit_bytes_pos (u : SizeUnit) : (1024 <= unit_bytes u)%Z.
Proof. destruct u; cbn; lia. Qed.

(** [C7] For every size written as a whole number [n] in decimal and
    every unit such that [n] times the bytes of the unit is below 2^53,
    [parseInt] reads [n] and the size is [null] when [n] is zero and
    otherwise exactly [n] times 1024, 1024^2 or 1024^3.  For every number
    read from the form, the [min_size] and [max_size] of the built
    request are [null] when the number is not positive ([NaN], zero,
    negative) and are otherwise the double nearest to the product. *)
Theorem C7_size_fields_in_bytes
    (f : Form) (value : Number) (unit : SizeUnit) (n : N) (rest : string)
    (Hrest : forall c, Js.first_char rest = Some c -> Js.digit c = None)
    (Hsafe : (Z.of_N n * unit_bytes unit < 2 ^ 53)%Z) :
  Js.parseInt (pretty n +:+ rest) = Int (Z.of_N n) /\
  convertSizeToBytes (Js.parseInt (pretty n +:+ rest)) unit
  = (if decide (n = 0%N) then None
     else Some (Int (Z.of_N n * unit_bytes unit))) /\
  size_field value unit (convertSizeToBytes value unit) /\
  size_field (Js.parseInt (f_min_size_value f)) (f_min_size_unit f)
    (min_size (buildSearchPayload f)) /\
  size_field (Js.parseInt (f_max_size_value f)) (f_max_size_unit f)
    (max_size (buildSearchPayload f)) /\
  unit_bytes KB = (1024 ^ 1)%Z /\ unit_bytes MB = (1024 ^ 2)%Z /\
  unit_bytes GB = (1024 ^ 3)%Z.
Proof.
  assert (Js.parseInt (pretty n +:+ rest) = Int (Z.of_N n)) as Hparse.
  { rewrite parseInt_pretty by done. apply nearest_double_small.
    pose proof (unit_bytes_pos unit). nia. }
  split; [exact Hparse|].
  split.
  { rewrite Hparse. pose proof (convertSizeToBytes_field (Int (Z.of_N n)) unit) as H.
    unfold size_field in H. destruct (decide (n = 0%N)) as [->|Hn].
    - by destruct (decide (0 < Z.of_N 0)%Z); [lia|].
    - destruct (decide (0 < Z.of_N n)%Z); [|lia]. by apply H. }
  do 3 (split; [apply convertSizeToBytes_field|]).
  repeat split; reflexivity.
Qed.

Lemma C7_size_fields_in_bytes_witness :
  Js.parseInt "2" = Int 2 /\
  convertSizeToBytes (Js.parseInt "2") MB = Some (Int 2097152).
Proof.
  pose proof (C7_size_fields_in_bytes (sample_form "a") NaN MB 2 EmptyString) as H.
  refine (let H' := H _ _ in conj (proj1 H') (proj1 (proj2 H'))).
  - intros c. discriminate.
  - vm_compute. reflexivity.
Defined.

(** [C7], refuted as stated: a size of 9007199254740993 kilobytes, which
    is 2^53 + 1, is read as 2^53, so the field is not the value times
    1024; and a size of 10^306 gigabytes gives the field [Infinity]. *)
Lemma C7_large_size_not_exact :
  let f := fun text unit =>
    {| f_search_path := "C:\data"; f_keywords := "a";
       f_search_type := "file_content"; f_excluded_folders := EmptyString;
       f_file_extensions := EmptyString; f_include_dot_folders := false;
       f_case_sensitive := false; f_use_regex := false;
       f_file_category := EmptyString;
       f_min_size_value := text; f_min_size_unit := unit;
       f_max_size_value := EmptyString; f_max_size_unit := KB |} in
  Js.parseInt "9007199254740993" = Int 9007199254740992 /\
  min_size (buildSearchPayload (f "9007199254740993" KB))
  = Some (Int (9007199254740992 * 1024)) /\
  min_size (buildSearchPayload (f "9007199254740993" KB))
  <> Some (Int (9007199254740993 * 1024)) /\
  min_size (buildSearchPayload (f (pretty (10 ^ 306)%N) GB))
  = Some (Infinity false).
Proof.
  cbv zeta. split; [|split; [|split]]; [vm_compute; reflexivity ..| |].
  - vm_compute. discriminate.
  - vm_compute. reflexivity.
Qed.

(** ** Escaping *)

Section Escaping.

Local Open Scope string_scope.

Lemma count_char_app (c : ascii) (s t : string) :
  Html.count_char c (s +:+ t) = Html.count_char c s + Html.count_char c t.
Proof.
  induction s as [|d r IH]; [reflexivity|].
  change (String d r +:+ t) with (String d (r +:+ t)).
  simpl. rewrite IH. lia.
Qed.

Lemma escape_char_no_lt (c : ascii) :
  Html.count_char "<"%char (Html.escape_char c) = 0.
Proof. destruct c as [[] [] [] [] [] [] [] []]; reflexivity. Qed.

Lemma escape_char_no_gt (c : ascii) :
  Html.count_char ">"%char (Html.escape_char c) = 0.
Proof. destruct c as [[] [] [] [] [] [] [] []]; reflexivity. Qed.

Lemma escapeHTML_no_lt (s : string) :
  Html.count_char "<"%char (Html.escapeHTML s) = 0.
Proof.
  induction s as [|c r IH]; [reflexivity|].
  simpl. by rewrite count_char_app, escape_char_no_lt, IH.
Qed.

Lemma escapeHTML_no_gt (s : string) :
  Html.count_char ">"%char (Html.escapeHTML s) = 0.
Proof.
  induction s as [|c r IH]; [reflexivity|].
  simpl. by rewrite count_char_app, escape_char_no_gt, IH.
Qed.

Lemma escape_char_amp (c : ascii) (t : string) :
  Html.amp_escaped (Html.escape_char c +:+ t) = Html.amp_escaped t.
Proof.
  destruct c as [[] [] [] [] [] [] [] []];
    cbv [Html.escape_char String.append]; cbn; try reflexivity;
    destruct t; reflexivity.
Qed.

Lemma escapeHTML_amp (s : string) : Html.amp_escaped (Html.escapeHTML s) = true.
Proof.
  induction s as [|c r IH]; [reflexivity|].
  simpl. by rewrite escape_char_amp.
Qed.

End Escaping.

(** [C9] For every string, [escapeHTML] returns a text with no [<] and no
    [>], in which every [&] starts one of the character references it
    writes; the markup of a result item therefore has the same tags
    whatever the path is. *)
Theorem C9_escapeHTML_has_no_markup (s : string) :
  Html.count_char "<"%char (Html.escapeHTML s) = 0 /\
  Html.count_char ">"%char (Html.escapeHTML s) = 0 /\
  Html.amp_escaped (Html.escapeHTML s) = true /\
  Html.escapeHTML "<&>" = "&lt;&amp;&gt;" /\
  Html.count_char "<"%char (Html.result_item_html s) = 8 /\
  Html.count_char ">"%char (Html.result_item_html s) = 8.
Proof.
  split; [apply escapeHTML_no_lt|].
  split; [apply escapeHTML_no_gt|].
  split; [apply escapeHTML_amp|].
  split; [reflexivity|].
  unfold Html.result_item_html.
  rewrite !count_char_app, !escapeHTML_no_lt, !escapeHTML_no_gt.
  split; reflexivity.
Qed.

(** ** What is read from the store *)

Lemma json_request_idem (p : SearchRequest) :
  json_request (json_request p) = json_request p.
Proof.
  unfold json_request. cbn.
  by destruct (min_size p) as [[| |]|], (max_size p) as [[| |]|].
Qed.

Lemma json_request_finite (p : SearchRequest) :
  finite_size (min_size p) -> finite_size (max_size p) -> json_request p = p.
Proof.
  destruct p as [? ? ? ? ? ? ? ? ? mn mx]. unfold json_request. cbn.
  by destruct mn as [[| |]|], mx as [[| |]|].
Qed.

Lemma history_json (s : State) : json_request <$> history s = history s.
Proof.
  unfold history. rewrite <- list_fmap_compose.
  apply list_fmap_ext. intros _ p _. apply json_request_idem.
Qed.

Lemma history_store (h : list SearchRequest) (s : State) :
  history (store_history h s) = json_request <$> h.
Proof. reflexivity. Qed.

Lemma searches_json (s : State) : json_request <$> searches s = searches s.
Proof.
  unfold searches. rewrite <- map_fmap_compose.
  apply map_fmap_ext. intros _ p _. apply json_request_idem.
Qed.

Lemma searches_store (m : gmap string SearchRequest) (s : State) :
  searches (store_searches m s) = json_request <$> m.
Proof. reflexivity. Qed.

Lemma history_addSearchToHistory (payload : SearchRequest) (s : State) :
  history (addSearchToHistory payload s)
  = take MAX_HISTORY (json_request payload :: history s).
Proof.
  unfold addSearchToHistory. rewrite history_store, fmap_take, fmap_cons.
  by rewrite history_json.
Qed.

Lemma history_removeFromHistory (index : nat) (s : State) :
  history (removeFromHistory index s) = delete index (history s).
Proof.
  unfold removeFromHistory.
  by rewrite history_store, list_fmap_delete, history_json.
Qed.

Lemma history_startSearch (f : Form) (s : State) :
  history (startSearch f s)
  = take MAX_HISTORY (json_request (buildSearchPayload f) :: history s).
Proof. apply history_addSearchToHistory. Qed.

(** ** Starting a search *)

(** [C1, as the code has it] [startSearch] has no guard: in every state,
    also while a channel is connecting or open, it puts the request, as
    JSON keeps it, in front of the history, cut to 15 entries, and opens
    a new socket, which becomes the current one; the sockets made before
    stay as they were. *)
Theorem C1_start_is_unguarded (f : Form) (s : State) :
  let s' := startSearch f s in
  sockets s' = sockets s ++ [new_socket (buildSearchPayload f)] /\
  ws s' = Some (length (sockets s)) /\
  history s' = take 15 (json_request (buildSearchPayload f) :: history s) /\
  searches s' = searches s /\
  logDiv s' = logDiv s /\ searchResults s' = searchResults s /\
  resultsItems s' = resultsItems s /\ controls s' = controls s.
Proof.
  cbv zeta. split; [reflexivity|]. split; [reflexivity|].
  split; [apply history_startSearch|]. by repeat split.
Qed.

(** [C1, as stated] fails: while the first socket is still connecting,
    and again once it is open, a second [startSearch] opens a second
    socket and adds a second history entry. *)
Lemma C1_start_while_active_not_noop :
  let f := sample_form "report" in
  let s1 := run initial [Submit f] in
  let s2 := run initial [Submit f; WsOpen 0] in
  (connecting s1 /\ length (sockets s1) = 1 /\ length (history s1) = 1 /\
   length (sockets (startSearch f s1)) = 2 /\
   length (history (startSearch f s1)) = 2) /\
  (scanning s2 /\ length (sockets s2) = 1 /\ length (history s2) = 1 /\
   length (sockets (startSearch f s2)) = 2 /\
   length (history (startSearch f s2)) = 2).
Proof.
  split; (split; [eexists; split; [reflexivity|reflexivity]|]);
    repeat split; reflexivity.
Qed.

(** ** Saved searches *)

(** [C10] When the prompt gives no name, cancelled or left empty, saving
    changes nothing: the function returns before it reads or writes the
    store, so the saved searches, and the whole state, stay as they
    were. *)
Theorem C10_save_without_name_changes_nothing
    (answer : option string) (f : Form) (s : State)
    (Hno_name : answer = None \/ answer = Some EmptyString) :
  saveCurrentSearch answer f s = s /\
  step s (ClickSave answer f) = s /\
  savedSearches (storage (saveCurrentSearch answer f s)) = savedSearches (storage s).
Proof. destruct Hno_name as [-> | ->]; repeat split. Qed.

Lemma C10_save_without_name_witness :
  saveCurrentSearch (Some EmptyString) (sample_form "a") initial = initial /\
  step initial (ClickSave (Some EmptyString) (sample_form "a")) = initial /\
  savedSearches (storage (saveCurrentSearch (Some EmptyString) (sample_form "a") initial))
    = savedSearches (storage initial).
Proof.
  apply (C10_save_without_name_changes_nothing
           (Some EmptyString) (sample_form "a") initial).
  right. reflexivity.
Defined.

Lemma searches_saveCurrentSearch (name : string) (f : Form) (s : State) :
  name <> EmptyString -> name <> "__proto__" ->
  searches (saveCurrentSearch (Some name) f s)
  = <[name := json_request (buildSearchPayload f)]> (searches s).
Proof.
  intros Hname Hproto. unfold saveCurrentSearch.
  apply truthy_nonempty in Hname. rewrite Hname.
  unfold assign. rewrite decide_False by (by intros [? _]).
  by rewrite searches_store, fmap_insert, searches_json.
Qed.

Lemma searches_deleteSelectedSearch (selected : string) (s : State) :
  selected <> EmptyString ->
  searches (deleteSelectedSearch selected true s) = delete selected (searches s).
Proof.
  intros Hsel. unfold deleteSelectedSearch.
  apply truthy_nonempty in Hsel. rewrite Hsel. cbn [andb].
  by rewrite searches_store, fmap_delete, searches_json.
Qed.

Lemma select_values_safe (s : State) :
  (forall n, n ∈ dom (searches s) -> markup_safe n = true) ->
  select_values s
  = Some (if decide (dom (searches s) = ∅) then {[EmptyString]} else dom (searches s)).
Proof.
  intros H. unfold select_values.
  replace (forallb markup_safe (elements (dom (searches s)))) with true; [done|].
  symmetry. apply forallb_forall. intros n Hn. apply H.
  by apply elem_of_elements, list_elem_of_In.
Qed.

Lemma select_values_saved (name : string) (f : Form) (s : State) :
  name <> EmptyString -> name <> "__proto__" -> markup_safe name = true ->
  (forall n, n ∈ dom (searches s) -> markup_safe n = true) ->
  exists values,
    select_values (saveCurrentSearch (Some name) f s) = Some values /\
    name ∈ values.
Proof.
  intros Hname Hproto Hsafe Hstore.
  assert (dom (searches (saveCurrentSearch (Some name) f s))
          = {[name]} ∪ dom (searches s)) as Hdom.
  { rewrite searches_saveCurrentSearch by done. apply dom_insert_L. }
  rewrite select_values_safe.
  - eexists. split; [reflexivity|]. rewrite Hdom.
    assert (name ∈ ({[name]} ∪ dom (searches s) : gset string)) as Hin
      by apply elem_of_union_l, elem_of_singleton_2, eq_refl.
    rewrite decide_False; [exact Hin|].
    intros He. rewrite He in Hin. by apply not_elem_of_empty in Hin.
  - rewrite Hdom. intros n [->%elem_of_singleton|Hn]%elem_of_union; auto.
Qed.

(** [C5, as the code has it] For every name that is not empty, is not the
    reserved [__proto__] and, like the names saved before, goes into the
    markup of its option as it is: after saving under the name the select
    offers it, and loading it gives the request built from the form as
    JSON keeps it, which is the request itself when its sizes are finite;
    the other entries are kept, and a name that was there is overwritten,
    the number of entries staying the same. *)
Theorem C5_save_then_load (name : string) (f : Form) (s : State)
    (Hname : name <> EmptyString) (Hproto : name <> "__proto__")
    (Hsafe : markup_safe name = true)
    (Hstore : forall n, n ∈ dom (searches s) -> markup_safe n = true) :
  let s' := saveCurrentSearch (Some name) f s in
  (exists values, select_values s' = Some values /\ name ∈ values) /\
  loadSelectedSearch name s' = Own (json_request (buildSearchPayload f)) /\
  (finite_size (min_size (buildSearchPayload f)) ->
   finite_size (max_size (buildSearchPayload f)) ->
   loadSelectedSearch name s' = Own (buildSearchPayload f)) /\
  (forall other, other <> name ->
     loadSelectedSearch other s' = loadSelectedSearch other s) /\
  (is_Some (searches s !! name) -> size (searches s') = size (searches s)) /\
  (searches s !! name = None -> size (searches s') = S (size (searches s))) /\
  dom (searches s') = {[name]} ∪ dom (searches s).
Proof.
  pose proof (searches_saveCurrentSearch name f s Hname Hproto) as Hs.
  cbv zeta.
  split; [by apply select_values_saved|].
  unfold loadSelectedSearch. rewrite Hs.
  split; [by rewrite lookup_insert_eq|].
  split; [intros Hmin Hmax; by rewrite lookup_insert_eq, json_request_finite|].
  split; [intros other Hne; by rewrite lookup_insert_ne|].
  split; [apply map_size_insert_Some|].
  split; [apply map_size_insert_None|].
  apply dom_insert_L.
Qed.

Lemma C5_save_then_load_witness :
  loadSelectedSearch "logs"
    (saveCurrentSearch (Some "logs") (sample_form "error") initial)
  = Own (buildSearchPayload (sample_form "error")).
Proof.
  refine (proj1 (proj2 (proj2
    (C5_save_then_load "logs" (sample_form "error") initial _ _ _ _))) _ _);
    [discriminate|discriminate|reflexivity| |exact I|exact I].
  intros n Hn. vm_compute in Hn. discriminate.
Defined.

(** [C5, as stated] fails for the empty name: nothing is saved under it,
    so loading it finds no request.  It fails as well for a request with
    a size beyond the largest double: the size is [Infinity] in the
    request and [null] in what is loaded. *)
Lemma C5_empty_name_not_saved :
  let huge :=
    {| f_search_path := "C:\data"; f_keywords := "a";
       f_search_type := "file_content"; f_excluded_folders := EmptyString;
       f_file_extensions := EmptyString; f_include_dot_folders := false;
       f_case_sensitive := false; f_use_regex := false;
       f_file_category := EmptyString;
       f_min_size_value := pretty (10 ^ 306)%N; f_min_size_unit := GB;
       f_max_size_value := EmptyString; f_max_size_unit := KB |} in
  (loadSelectedSearch EmptyString
     (saveCurrentSearch (Some EmptyString) (sample_form "error") initial)
   = Undefined /\
   loadSelectedSearch EmptyString
     (saveCurrentSearch (Some EmptyString) (sample_form "error") initial)
   <> Own (buildSearchPayload (sample_form "error"))) /\
  (min_size (buildSearchPayload huge) = Some (Infinity false) /\
   (exists loaded,
      loadSelectedSearch "big" (saveCurrentSearch (Some "big") huge initial)
      = Own loaded /\ min_size loaded = None) /\
   loadSelectedSearch "big" (saveCurrentSearch (Some "big") huge initial)
   <> Own (buildSearchPayload huge)).
Proof.
  cbv zeta. split; [split; [reflexivity|discriminate]|].
  split; [vm_compute; reflexivity|].
  split.
  - eexists. split; [vm_compute; reflexivity|reflexivity].
  - intros H. vm_compute in H. discriminate.
Qed.

(** ** What the handlers leave alone *)

Lemma appendSingleResult_frame (path : string) (s : State) :
  let s' := appendSingleResult path s in
  sockets s' = sockets s /\ ws s' = ws s /\ storage s' = storage s /\
  searchResults s' = searchResults s /\ controls s' = controls s /\
  logDiv s' = logDiv s.
Proof. unfold appendSingleResult. by destruct (Js.startsWithGt _). Qed.

Lemma foldl_appendSingleResult_frame (paths : list string) (s : State) :
  let s' := foldl (fun acc path => appendSingleResult path acc) s paths in
  sockets s' = sockets s /\ ws s' = ws s /\ storage s' = storage s /\
  searchResults s' = searchResults s /\ controls s' = controls s /\
  logDiv s' = logDiv s.
Proof.
  revert s. induction paths as [|p ps IH]; intros s; [done|].
  simpl. specialize (IH (appendSingleResult p s)). simpl in IH.
  pose proof (appendSingleResult_frame p s) as Hp. simpl in Hp.
  destruct IH as (-> & -> & -> & -> & -> & ->). exact Hp.
Qed.

Lemma closeIfOpen_frame (s : State) :
  let s' := closeIfOpen s in
  ws s' = ws s /\ storage s' = storage s /\
  searchResults s' = searchResults s /\ controls s' = controls s /\
  logDiv s' = logDiv s /\ resultsItems s' = resultsItems s /\
  resultsText s' = resultsText s /\
  length (sockets s') = length (sockets s).
Proof.
  unfold closeIfOpen.
  repeat case_match; repeat split; simpl; by rewrite ?length_insert.
Qed.

Lemma ws_send_frame (c : Command) (s : State) :
  let s' := ws_send c s in
  ws s' = ws s /\ storage s' = storage s /\
  searchResults s' = searchResults s /\ controls s' = controls s /\
  logDiv s' = logDiv s /\ resultsItems s' = resultsItems s /\
  resultsText s' = resultsText s /\
  length (sockets s') = length (sockets s).
Proof.
  unfold ws_send.
  repeat case_match; repeat split; simpl; by rewrite ?length_insert.
Qed.

Lemma handleWebSocketMessage_storage (data : Message) (s : State) :
  storage (handleWebSocketMessage data s) = storage s.
Proof.
  destruct data as [cats|msg|tid|path|sc fo|results summary|];
    cbn [handleWebSocketMessage].
  - by destruct cats.
  - by destruct (closeIfOpen_frame (appendLog (error_html msg) false s)) as (_ & -> & _).
  - done.
  - by destruct (appendSingleResult_frame path s) as (_ & _ & -> & _).
  - unfold updateScanProgress. by repeat case_match.
  - unfold renderResults. destruct results as [|r rs]; [by case_match|].
    cbn [storage set_controls].
    by destruct (foldl_appendSingleResult_frame (r :: rs)
      (set_results EmptyString [] (set_searchResults (r :: rs)
         (appendLog (complete_html summary) false (set_logProgressElement None s)))))
      as (_ & _ & -> & _).
  - done.
Qed.

Lemma onopen_storage (payload : SearchRequest) (s : State) :
  storage (onopen payload s) = storage s.
Proof. unfold onopen. by destruct (ws_send_frame (StartSearch payload)
  (appendLog ("> TARGET PATH: " +:+ search_path payload) false
     (appendLog (searching_html payload) true (resetUIBeforeSearch s)))) as (_ & -> & _).
Qed.

Lemma stopSearch_storage (s : State) : storage (stopSearch s) = storage s.
Proof.
  unfold stopSearch. cbn [storage set_controls appendLog set_logDiv].
  by destruct (closeIfOpen_frame s) as (_ & -> & _).
Qed.

Lemma onclose_storage (s : State) : storage (onclose s) = storage s.
Proof. unfold onclose. by case_match. Qed.

(** Only the history listeners and [startSearch] write the history. *)
Lemma step_history (s : State) (e : Event) :
  history (step s e) =
    match e with
    | Submit f => take MAX_HISTORY (json_request (buildSearchPayload f) :: history s)
    | ClickHistoryDelete index => delete index (history s)
    | _ => history s
    end.
Proof.
  destruct e as [f| | |answer f|sel conf|index|i|i data|i failed]; cbn [step];
    [apply history_startSearch| | | | |apply history_removeFromHistory| | |];
    unfold history; try reflexivity.
  - by rewrite stopSearch_storage.
  - unfold saveCurrentSearch. by repeat case_match.
  - unfold deleteSelectedSearch. by case_match.
  - repeat case_match; try done. by rewrite onopen_storage.
  - repeat case_match; try done. unfold onmessage.
    by rewrite handleWebSocketMessage_storage.
  - repeat case_match; try done; by rewrite onclose_storage.
Qed.

(** ** History *)

Lemma take_app_take {A} (n : nat) (l k : list A) :
  take n (l ++ take n k) = take n (l ++ k).
Proof.
  rewrite !take_app, take_take. do 2 f_equal. lia.
Qed.

Lemma history_after_starts (fs : list Form) (s : State) :
  length (history s) <= MAX_HISTORY ->
  history (run s (Submit <$> fs))
  = take MAX_HISTORY
      (reverse (json_request <$> (buildSearchPayload <$> fs)) ++ history s).
Proof.
  revert s. induction fs as [|f fs IH]; intros s Hlen.
  - simpl. by rewrite take_ge.
  - simpl. unfold run in IH. rewrite IH.
    + rewrite history_startSearch.
      rewrite take_app_take, reverse_cons, <- app_assoc. reflexivity.
    + rewrite history_startSearch, length_take. lia.
Qed.

(** [C3] Starting from an empty history, after N searches the history has
    exactly min(N, 15) entries, the newest first, each as JSON keeps it.
    Deleting the entry at
    index [i] removes that entry alone, the later ones moving up by one.
    No event makes the history longer than 15. *)
Theorem C3_history_bounded_newest_first
    (s : State) (fs : list Form) (t : State) (i : nat) (e : Event)
    (Hempty : history s = [])
    (Hindex : i < length (history t))
    (Hbound : length (history t) <= 15) :
  (history (run s (Submit <$> fs))
   = json_request <$> take 15 (reverse (buildSearchPayload <$> fs)) /\
   length (history (run s (Submit <$> fs))) = Nat.min (length fs) 15) /\
  (length (history (removeFromHistory i t)) = length (history t) - 1 /\
   (forall j, j < i -> history (removeFromHistory i t) !! j = history t !! j) /\
   (forall j, i <= j -> history (removeFromHistory i t) !! j = history t !! S j)) /\
  ((forall payload, history (addSearchToHistory payload t)
                    = take 15 (json_request payload :: history t)) /\
   removeFromHistory i t = step t (ClickHistoryDelete i) /\
   history (removeFromHistory i t) `sublist_of` history t /\
   length (history (step t e)) <= 15).
Proof.
  split; [|split].
  - rewrite history_after_starts by (rewrite Hempty; simpl; lia).
    rewrite Hempty, app_nil_r. split; [by rewrite fmap_take, fmap_reverse|].
    rewrite length_take, length_reverse, !length_fmap. unfold MAX_HISTORY. lia.
  - rewrite history_removeFromHistory.
    split; [apply length_delete; by apply lookup_lt_is_Some|].
    split; [intros j Hj; by apply list_lookup_delete_lt|].
    intros j Hj; by apply list_lookup_delete_ge.
  - split; [intros payload; apply history_addSearchToHistory|].
    split; [reflexivity|].
    rewrite history_removeFromHistory.
    split; [apply sublist_delete|].
    rewrite step_history. destruct e; try exact Hbound.
    + rewrite length_take. unfold MAX_HISTORY. lia.
    + pose proof (sublist_length _ _ (sublist_delete (history t) index)). lia.
Qed.

(** ** The result list *)

Lemma startsWithGt_textContent (s : State) :
  Js.startsWithGt (resultsTextContent s) = Js.startsWithGt (resultsText s).
Proof.
  unfold resultsTextContent. destruct (resultsText s) as [|c r]; [|reflexivity].
  destruct (resultsItems s) as [|p [|q ps]]; reflexivity.
Qed.

Lemma appendSingleResult_items (path : string) (s : State) :
  resultsItems (appendSingleResult path s)
  = (if Js.startsWithGt (resultsText s) then [] else resultsItems s) ++ [path] /\
  resultsText (appendSingleResult path s)
  = (if Js.startsWithGt (resultsText s) then EmptyString else resultsText s).
Proof.
  unfold appendSingleResult. rewrite startsWithGt_textContent.
  by destruct (Js.startsWithGt (resultsText s)).
Qed.

(** Items are appended one after the other; the first one removes a
    placeholder that starts with [>]. *)
Lemma foldl_appendSingleResult_plain (paths : list string) (s : State) :
  Js.startsWithGt (resultsText s) = false ->
  let s' := foldl (fun acc path => appendSingleResult path acc) s paths in
  resultsItems s' = resultsItems s ++ paths /\ resultsText s' = resultsText s.
Proof.
  revert s. induction paths as [|p ps IH]; intros s Hs.
  - simpl. by rewrite app_nil_r.
  - cbn [foldl]. cbv zeta. destruct (appendSingleResult_items p s) as [Hi Ht].
    rewrite Hs in Hi, Ht.
    destruct (IH (appendSingleResult p s)) as [-> ->]; [by rewrite Ht|].
    rewrite Hi, Ht, <- app_assoc. done.
Qed.

Lemma foldl_appendSingleResult_fresh (paths : list string) (s : State) :
  resultsItems s = [] ->
  resultsItems (foldl (fun acc path => appendSingleResult path acc) s paths) = paths.
Proof.
  intros Hs. destruct paths as [|p ps]; [exact Hs|].
  cbn [foldl]. destruct (appendSingleResult_items p s) as [Hi Ht].
  destruct (foldl_appendSingleResult_plain ps (appendSingleResult p s)) as [-> _].
  - rewrite Ht. by destruct (Js.startsWithGt (resultsText s)) eqn:E.
  - rewrite Hi, Hs. by destruct (Js.startsWithGt (resultsText s)).
Qed.

Lemma renderResults_items (results : list string) (s : State) :
  let s' := renderResults results s in
  resultsItems s' = results /\ resultsText s' = EmptyString /\
  exportButtonHidden (controls s')
  = match results with [] => exportButtonHidden (controls s) | _ => false end /\
  sockets s' = sockets s /\ ws s' = ws s /\ searchResults s' = searchResults s.
Proof.
  unfold renderResults. destruct results as [|r rs].
  - by rewrite startsWithGt_textContent.
  - cbv zeta. cbn [resultsItems resultsText sockets ws searchResults set_controls].
    destruct (foldl_appendSingleResult_plain (r :: rs) (set_results EmptyString [] s))
      as [-> ->]; [reflexivity|].
    destruct (foldl_appendSingleResult_frame (r :: rs) (set_results EmptyString [] s))
      as (-> & -> & _ & -> & _).
    done.
Qed.

(** ** Events of an open socket *)

Lemma step_message_open (i : nat) (data : Message) (s : State) :
  open_on i s -> step s (WsMessage i data) = handleWebSocketMessage data s.
Proof.
  intros (_ & so & Hso & Hopen). cbn [step]. rewrite Hso.
  by rewrite decide_True.
Qed.

Lemma open_after_start (f : Form) (s0 : State) :
  let i := length (sockets s0) in
  let s := run s0 [Submit f; WsOpen i] in
  open_on i s /\ searchResults s = [] /\ resultsItems s = [] /\
  exportButtonHidden (controls s) = true /\
  stopButtonDisabled (controls s) = false /\
  history s = take 15 (json_request (buildSearchPayload f) :: history s0) /\
  length (sockets s) = S (length (sockets s0)).
Proof.
  cbv zeta.
  assert (history (run s0 [Submit f; WsOpen (length (sockets s0))])
          = take 15 (json_request (buildSearchPayload f) :: history s0)) as ->.
  { unfold run. cbn [foldl]. rewrite step_history. apply history_startSearch. }
  unfold run. cbn [foldl].
  set (p := buildSearchPayload f).
  assert (sockets (startSearch f s0) !! length (sockets s0) = Some (new_socket p)) as Hnew.
  { cbn. by rewrite list_lookup_middle. }
  cbn [step]. rewrite Hnew. rewrite decide_True by reflexivity.
  unfold onopen, ws_send. cbn.
  rewrite list_lookup_insert_eq by (rewrite length_app; simpl; lia).
  rewrite decide_True by reflexivity.
  cbn. split; [split; [reflexivity|]|].
  - eexists. split.
    + cbn. rewrite list_lookup_insert_eq; [reflexivity|].
      rewrite length_insert, length_app. simpl. lia.
    + reflexivity.
  - do 5 (split; [reflexivity|]).
    rewrite !length_insert, length_app. simpl. lia.
Qed.

Lemma open_on_frame (i : nat) (s s' : State) :
  sockets s' = sockets s -> ws s' = ws s -> open_on i s -> open_on i s'.
Proof. unfold open_on. by intros -> ->. Qed.

Lemma run_items_open (i : nat) (paths : list string) (s : State) :
  open_on i s ->
  run s (WsMessage i ∘ ItemFound <$> paths)
  = foldl (fun acc path => appendSingleResult path acc) s paths.
Proof.
  revert s. induction paths as [|p ps IH]; intros s Hs; [reflexivity|].
  unfold run in *. cbn [fmap list_fmap foldl compose].
  rewrite step_message_open by exact Hs.
  cbn [handleWebSocketMessage]. apply IH.
  destruct (appendSingleResult_frame p s) as (Hso & Hws & _).
  by apply (open_on_frame i s).
Qed.

Lemma run_app (s : State) (es1 es2 : list Event) :
  run s (es1 ++ es2) = run (run s es1) es2.
Proof. apply foldl_app. Qed.

(** [C4] Events are handled one by one in the order they arrive.  In a
    session, [item_found] for [a], then for [b], then [scan_complete] with
    the results [a], [b] leaves the result list showing exactly [a], [b]
    in that order and the export button shown; and any run of
    [item_found] events shows their paths in the order received. *)
Theorem C4_events_in_arrival_order
    (s0 : State) (f : Form) (a b summary : string) (paths : list string) :
  let i := length (sockets s0) in
  let opened := run s0 [Submit f; WsOpen i] in
  let final := run opened [WsMessage i (ItemFound a); WsMessage i (ItemFound b);
                          WsMessage i (ScanComplete [a; b] summary)] in
  (resultsItems final = [a; b] /\ resultsText final = EmptyString /\
   searchResults final = [a; b] /\ exportButtonHidden (controls final) = false) /\
  resultsItems (run opened [WsMessage i (ItemFound a); WsMessage i (ItemFound b)])
    = [a; b] /\
  resultsItems (run opened (WsMessage i ∘ ItemFound <$> paths)) = paths /\
  (forall es1 es2 : list Event, run s0 (es1 ++ es2) = run (run s0 es1) es2).
Proof.
  cbv zeta.
  destruct (open_after_start f s0) as (Hopen & _ & Hitems & _).
  set (opened := run s0 [Submit f; WsOpen (length (sockets s0))]) in *.
  assert (forall ps, resultsItems (run opened (WsMessage (length (sockets s0)) ∘ ItemFound <$> ps)) = ps)
    as Hps.
  { intros ps. rewrite run_items_open by exact Hopen.
    by apply foldl_appendSingleResult_fresh. }
  split; [|split; [apply (Hps [a; b])|split; [apply Hps|intros; apply run_app]]].
  change [WsMessage (length (sockets s0)) (ItemFound a);
          WsMessage (length (sockets s0)) (ItemFound b);
          WsMessage (length (sockets s0)) (ScanComplete [a; b] summary)]
    with ((WsMessage (length (sockets s0)) ∘ ItemFound <$> [a; b])
          ++ [WsMessage (length (sockets s0)) (ScanComplete [a; b] summary)]).
  rewrite run_app, run_items_open by exact Hopen.
  set (s2 := foldl _ opened [a; b]).
  assert (open_on (length (sockets s0)) s2) as Hopen2.
  { destruct (foldl_appendSingleResult_frame [a; b] opened) as (Hso & Hws & _).
    by apply (open_on_frame _ opened). }
  unfold run. cbn [foldl]. rewrite step_message_open by exact Hopen2.
  cbn [handleWebSocketMessage].
  match goal with |- context [renderResults ?r ?s] =>
    destruct (renderResults_items r s) as (-> & -> & -> & _ & _ & ->) end.
  done.
Qed.

(** ** Errors *)

(** [C8, as the code has it] An [error] event of the open socket that
    [ws] holds puts the message text of the payload, unchanged and
    unescaped, in the markup of a new log entry marked as an error, which
    is the markup that shows the message as written when the message has
    nothing to escape; it closes that socket, and starts nothing again:
    no socket is made, nothing is sent, and what still arrives on the
    socket is dropped. *)
Theorem C8_error_event_fails_session
    (s : State) (i : nat) (so : Socket) (message : string)
    (Hws : ws s = Some i) (Hso : sockets s !! i = Some so)
    (Hopen : readyState so = OPEN) :
  let s' := step s (WsMessage i (Error message)) in
  logDiv s' = logDiv s ++
    ["<span class=" +:+ Html.dq +:+ "status-error" +:+ Html.dq +:+ ">> ERROR: "
       +:+ message +:+ "</span>"] /\
  (Html.escapeHTML message = message ->
   logDiv s' = logDiv s ++
     ["<span class=" +:+ Html.dq +:+ "status-error" +:+ Html.dq +:+ ">> ERROR: "
        +:+ Html.escapeHTML message +:+ "</span>"]) /\
  sockets s' = <[i := set_readyState CLOSING so]> (sockets s) /\
  sockets s' !! i = Some {| readyState := CLOSING; so_payload := so_payload so;
                            so_sent := so_sent so |} /\
  length (sockets s') = length (sockets s) /\ ws s' = ws s /\
  storage s' = storage s /\ searchResults s' = searchResults s /\
  (forall data, step s' (WsMessage i data) = s').
Proof.
  cbv zeta.
  match goal with |- ?A /\ (?H -> ?B) /\ ?C =>
    cut (A /\ C); [intros [HA HC]; split; [exact HA|split; [|exact HC]];
                    intros Hplain; rewrite Hplain; exact HA|] end.
  cbn [step]. rewrite Hso, decide_True by exact Hopen.
  unfold onmessage. cbn [handleWebSocketMessage].
  unfold closeIfOpen. cbn [ws sockets appendLog set_logDiv].
  rewrite Hws, Hso, decide_True by exact Hopen.
  assert (i < length (sockets s)) as Hi by (by eapply lookup_lt_Some).
  cbn. rewrite list_lookup_insert_eq by exact Hi.
  do 3 (split; [reflexivity|]).
  split; [by rewrite length_insert|].
  split; [by rewrite Hws|].
  do 2 (split; [reflexivity|]).
  intros data. by rewrite decide_False.
Qed.

Lemma C8_error_event_witness :
  let s := run initial [Submit (sample_form "a"); WsOpen 0] in
  let s' := step s (WsMessage 0 (Error "disk not ready")) in
  logDiv s' = logDiv s ++
    ["<span class=" +:+ Html.dq +:+ "status-error" +:+ Html.dq +:+ ">> ERROR: "
       +:+ "disk not ready" +:+ "</span>"] /\
  length (sockets s') = 1 /\
  (forall data, step s' (WsMessage 0 data) = s').
Proof.
  cbv zeta.
  pose proof (C8_error_event_fails_session
    (run initial [Submit (sample_form "a"); WsOpen 0]) 0
    {| readyState := OPEN;
       so_payload := buildSearchPayload (sample_form "a");
       so_sent := [StartSearch (buildSearchPayload (sample_form "a"))] |}
    "disk not ready" eq_refl eq_refl eq_refl) as H.
  cbv zeta in H. destruct H as (H1 & _ & _ & _ & H2 & _ & _ & _ & H3).
  split; [exact H1|split; [exact H2|exact H3]].
Defined.

(** [C8, as stated] fails on two counts.  The message is not shown as
    written when it holds markup: for the message [<b>x</b>] the log
    line gets a [b] element, its markup having four tags where the line
    that shows this text, with the message escaped, has two.  And the
    channel of the failing session is not closed when it is not the
    current one: an error arriving on the open socket of the first of two
    searches leaves that socket open. *)
Lemma C8_error_not_verbatim_nor_closed :
  let s := run initial [Submit (sample_form "a"); WsOpen 0] in
  let s' := step s (WsMessage 0 (Error "<b>x</b>")) in
  let t := run initial [Submit (sample_form "a"); Submit (sample_form "b");
                        WsOpen 1; WsOpen 0] in
  let t' := step t (WsMessage 0 (Error "disk not ready")) in
  (last (logDiv s') = Some (error_html "<b>x</b>") /\
   Html.escapeHTML "<b>x</b>" = "&lt;b&gt;x&lt;/b&gt;" /\
   error_html "<b>x</b>" <> error_html (Html.escapeHTML "<b>x</b>") /\
   Html.count_char "<"%char (error_html "<b>x</b>") = 4 /\
   Html.count_char "<"%char (error_html (Html.escapeHTML "<b>x</b>")) = 2) /\
  ((readyState <$> sockets t !! 0) = Some OPEN /\
   (readyState <$> sockets t' !! 0) = Some OPEN).
Proof.
  cbv zeta. split.
  - split; [vm_compute; reflexivity|]. split; [vm_compute; reflexivity|].
    split; [vm_compute; discriminate|].
    split; vm_compute; reflexivity.
  - split; vm_compute; reflexivity.
Qed.

(** ** Stopping *)

Lemma stopped_empty_message (i : nat) (data : Message) (s : State) :
  stopped_empty i s -> step s (WsMessage i data) = s.
Proof.
  intros (_ & (so & Hso & Hst) & _). cbn [step]. rewrite Hso.
  rewrite decide_False; [reflexivity|]. destruct Hst as [-> | ->]; discriminate.
Qed.

Lemma stopped_empty_step (i : nat) (e : Event) (s : State) :
  stopped_empty i s -> event_of_socket i e -> stopped_empty i (step s e).
Proof.
  intros Hs He. pose proof Hs as Hs'.
  destruct Hs' as (Hws & (so & Hso & Hst) & Hres & Hitems & Hexp & Hdis & Hlab).
  destruct e as [f| | |answer f|sel conf|index|j|j data|j failed];
    try contradiction; simpl in He; subst j.
  - cbn [step]. rewrite Hso.
    rewrite decide_False by (destruct Hst as [-> | ->]; discriminate).
    exact Hs.
  - by rewrite stopped_empty_message.
  - cbn [step]. rewrite Hso. case_decide; [exact Hs|].
    assert (i < length (sockets s)) as Hi by (by eapply lookup_lt_Some).
    unfold onclose, onerror, stopped_empty. cbv zeta.
    destruct failed; cbn [controls set_sockets appendLog set_logDiv];
    destruct (scanControlsHidden (controls s)); cbn;
      rewrite list_lookup_insert_eq by exact Hi;
      (split; [exact Hws|split; [eexists; split; [reflexivity|by right]|done]]).
Qed.

Lemma stopped_empty_run (i : nat) (late : list Event) (s : State) :
  stopped_empty i s -> Forall (event_of_socket i) late ->
  stopped_empty i (run s late) /\
  run s late = run s (List.filter (fun e => negb (is_ws_message e)) late).
Proof.
  intros Hs Hlate. revert s Hs.
  induction Hlate as [|e late He _ IH]; intros s Hs; [done|].
  unfold run in *. cbn [foldl List.filter].
  destruct e as [f| | |answer f|sel conf|index|j|j data|j failed];
    try contradiction; cbn [is_ws_message negb foldl];
    try (apply IH; by apply stopped_empty_step).
  simpl in He. subst j. rewrite stopped_empty_message by exact Hs. by apply IH.
Qed.

Lemma stopped_empty_after_stop (f : Form) (task_id : string) (s0 : State) :
  let i := length (sockets s0) in
  stopped_empty i
    (run s0 [Submit f; WsOpen i; WsMessage i (ScanStart task_id); ClickStop]).
Proof.
  cbv zeta.
  change [Submit f; WsOpen (length (sockets s0));
          WsMessage (length (sockets s0)) (ScanStart task_id); ClickStop]
    with ([Submit f; WsOpen (length (sockets s0))]
          ++ [WsMessage (length (sockets s0)) (ScanStart task_id); ClickStop]).
  rewrite run_app.
  destruct (open_after_start f s0) as (Hopen & Hres & Hitems & Hexp & _).
  set (s := run s0 [Submit f; WsOpen (length (sockets s0))]) in *.
  clearbody s.
  unfold run. cbn [foldl]. rewrite step_message_open by exact Hopen.
  destruct Hopen as (Hws & so & Hso & Hst).
  assert (length (sockets s0) < length (sockets s)) as Hi by (by eapply lookup_lt_Some).
  cbn [step handleWebSocketMessage]. unfold stopSearch, closeIfOpen.
  cbn [ws sockets appendLog set_logDiv]. rewrite Hws, Hso.
  rewrite decide_True by exact Hst.
  unfold stopped_empty. cbn. rewrite list_lookup_insert_eq by exact Hi.
  split; [exact Hws|]. split; [eexists; split; [reflexivity|by left]|].
  done.
Qed.

(** [C2] In a session stopped while scanning, after [scan_start] and
    before any [item_found], the page ends as cancelled, and whatever
    arrives on the socket afterwards leaves the captured results empty,
    the result list empty and the export button hidden; a message that
    arrives after the stop, [scan_complete] included, changes nothing. *)
Theorem C2_stop_discards_late_events
    (s0 : State) (f : Form) (task_id : string) (late : list Event)
    (Hlate : Forall (event_of_socket (length (sockets s0))) late) :
  let i := length (sockets s0) in
  let stopped :=
    run s0 [Submit f; WsOpen i; WsMessage i (ScanStart task_id); ClickStop] in
  let s := run stopped late in
  cancelled s /\
  searchResults s = [] /\ resultsItems s = [] /\
  exportButtonHidden (controls s) = true /\
  (forall data, step s (WsMessage i data) = s) /\
  s = run stopped (List.filter (fun e => negb (is_ws_message e)) late).
Proof.
  cbv zeta.
  pose proof (stopped_empty_after_stop f task_id s0) as Hstop. cbv zeta in Hstop.
  destruct (stopped_empty_run _ late _ Hstop Hlate) as [Hs Heq].
  split; [|split; [|split; [|split; [|split]]]]; try exact Heq.
  - destruct Hs as (Hws & (so & Hso & Hst) & _ & _ & _ & Hdis & Hlab).
    split; [|by split].
    intros so' Hc. unfold current in Hc. rewrite Hws in Hc.
    cbn [mbind option_bind] in Hc. rewrite Hso in Hc. injection Hc as <-.
    destruct Hst as [-> | ->]; discriminate.
  - apply Hs.
  - apply Hs.
  - apply Hs.
  - intros data. by apply stopped_empty_message.
Qed.

Lemma C2_stop_discards_late_events_witness :
  let late := [WsMessage 0 (ScanComplete ["C:\data\a.txt"] "1 item");
               WsClose 0 false] in
  let s := run initial
    ([Submit (sample_form "a"); WsOpen 0; WsMessage 0 (ScanStart "7"); ClickStop]
       ++ late) in
  Forall (event_of_socket 0) late /\
  searchResults s = [] /\ resultsItems s = [] /\
  exportButtonHidden (controls s) = true.
Proof.
  cbv zeta.
  assert (Forall (event_of_socket (length (sockets initial)))
            [WsMessage 0 (ScanComplete ["C:\data\a.txt"] "1 item");
             WsClose 0 false])
    as Hlate by (repeat constructor).
  split; [exact Hlate|].
  pose proof (C2_stop_discards_late_events initial (sample_form "a") "7" _ Hlate) as H.
  cbv zeta in H. rewrite run_app.
  destruct H as (_ & H1 & H2 & H3 & _). split; [exact H1|split; [exact H2|exact H3]].
Defined.

Lemma C3_history_witness :
  let fs := [sample_form "a"; sample_form "b"; sample_form "c"] in
  let t := run initial (Submit <$> fs) in
  history initial = [] /\ 1 < length (history t) /\ length (history t) <= 15 /\
  history t = buildSearchPayload <$> [sample_form "c"; sample_form "b"; sample_form "a"] /\
  length (history (removeFromHistory 1 t)) = 2 /\
  history (removeFromHistory 1 t) !! 1 = history t !! 2.
Proof.
  cbv zeta.
  assert (history initial = []) as Hempty by reflexivity.
  assert (1 < length (history (run initial
            (Submit <$> [sample_form "a"; sample_form "b"; sample_form "c"]))))
    as Hindex by (vm_compute; lia).
  assert (length (history (run initial
            (Submit <$> [sample_form "a"; sample_form "b"; sample_form "c"]))) <= 15)
    as Hbound by (vm_compute; lia).
  pose proof (C3_history_bounded_newest_first initial
    [sample_form "a"; sample_form "b"; sample_form "c"]
    (run initial (Submit <$> [sample_form "a"; sample_form "b"; sample_form "c"]))
    1 ClickStop Hempty Hindex Hbound) as [[H1 _] [(H2 & _ & H3) _]].
  split; [exact Hempty|]. split; [exact Hindex|]. split; [exact Hbound|].
  split; [exact H1|]. split; [exact H2|]. apply H3. lia.
Defined.

(** ** Examples *)

Example parse_list_example :
  parse_list " a , ,b,, c d ," = ["a"; "b"; "c d"].
Proof. reflexivity. Qed.

Example parseInt_example :
  Js.parseInt "  42px" = Int 42 /\ Js.parseInt "-7" = Int (-7) /\
  Js.parseInt "" = NaN /\ Js.parseInt "abc" = NaN /\
  Js.parseInt "1.5" = Int 1 /\
  Js.parseInt "18014398509481987" = Int 18014398509481988.
Proof. repeat split; vm_compute; reflexivity. Qed.

Example convertSizeToBytes_example :
  convertSizeToBytes (Int 2) MB = Some (Int 2097152) /\
  convertSizeToBytes (Int 0) KB = None /\
  convertSizeToBytes (Int (-3)) GB = None /\
  convertSizeToBytes NaN KB = None /\
  convertSizeToBytes (Infinity true) KB = None /\
  convertSizeToBytes (Infinity false) KB = Some (Infinity false) /\
  convertSizeToBytes (Int (2 ^ 1023)) KB = Some (Infinity false).
Proof. repeat split; vm_compute; reflexivity. Qed.

Example escapeHTML_example :
  Html.escapeHTML "<img src=x onerror=alert(1)> & co"
  = "&lt;img src=x onerror=alert(1)&gt; &amp; co".
Proof. reflexivity. Qed.

(** The handler on its own has no check of the session: called after
    [stopSearch] it would capture and show the results.  What keeps a late
    [scan_complete] out is that no message event is fired on the closed
    socket. *)
Example handler_has_no_guard :
  let s := run initial [Submit (sample_form "a"); WsOpen 0; ClickStop] in
  step s (WsMessage 0 (ScanComplete ["x"] "1 item")) = s /\
  searchResults (handleWebSocketMessage (ScanComplete ["x"] "1 item") s) = ["x"] /\
  exportButtonHidden (controls (handleWebSocketMessage (ScanComplete ["x"] "1 item") s))
  = false.
Proof. cbv zeta. split; [|split]; vm_compute; reflexivity. Qed.

(** Saving under the reserved name [__proto__] stores no entry: what is
    found under it afterwards is the prototype every object has. *)
Example save_proto_example :
  searches (saveCurrentSearch (Some "__proto__") (sample_form "a") initial) = ∅ /\
  loadSelectedSearch "__proto__"
    (saveCurrentSearch (Some "__proto__") (sample_form "a") initial) = Inherited.
Proof. split; reflexivity. Qed.

(** With no results, [scan_complete] leaves the result list empty and the
    export button hidden. *)
Example scan_complete_empty_example :
  let s := run initial [Submit (sample_form "a"); WsOpen 0;
                        WsMessage 0 (ScanComplete [] "0 items")] in
  resultsItems s = [] /\ resultsText s = EmptyString /\
  exportButtonHidden (controls s) = true.
Proof. repeat split; reflexivity. Qed.

(** Two progress events leave one progress line, showing the last one. *)
Example scan_progress_example :
  let s0 := run initial [Submit (sample_form "a"); WsOpen 0] in
  let s := run s0 [WsMessage 0 (ScanProgress 5%Z 1%Z);
                   WsMessage 0 (ScanProgress 9%Z 2%Z)] in
  length (logDiv s) = S (length (logDiv s0)) /\
  last (logDiv s) = Some (progress_html 9%Z 2%Z).
Proof. split; reflexivity. Qed.

(** * Further properties of the session code *)

(** ** Progress and completion *)

Lemma insert_snoc {A} (l : list A) (x y : A) :
  <[length l := x]> (l ++ [y]) = l ++ [x].
Proof.
  replace (length l) with (length l + 0) by lia.
  by rewrite insert_app_r.
Qed.

Lemma lookup_snoc_new {A} (l : list A) (x : A) : (l ++ [x]) !! length l = Some x.
Proof. by rewrite list_lookup_middle. Qed.

Lemma last_default {A B} (f : A -> B) (l : list A) (d : A) :
  default (f d) (f <$> last l) = f (List.last l d).
Proof.
  induction l as [|a l IH]; [done|].
  destruct l as [|b l]; [done|].
  rewrite last_cons_cons. exact IH.
Qed.

Lemma progress_in_place (shown : string) (qs : list (Z * Z)) (s : State) (l : list string) :
  logProgressElement s = Some (length l) -> logDiv s = l ++ [shown] ->
  let s' := foldl (fun acc m => handleWebSocketMessage m acc) s
              ((fun q => ScanProgress q.1 q.2) <$> qs) in
  logProgressElement s' = Some (length l) /\
  logDiv s' = l ++ [default shown ((fun q => progress_html q.1 q.2) <$> last qs)].
Proof.
  revert shown s. induction qs as [|q qs IH]; intros shown s Hp Hl; [done|].
  cbn [fmap list_fmap foldl handleWebSocketMessage]. cbv zeta.
  set (s1 := updateScanProgress q.1 q.2 s).
  assert (logProgressElement s1 = Some (length l) /\
          logDiv s1 = l ++ [progress_html q.1 q.2]) as [Hp1 Hl1].
  { unfold s1, updateScanProgress. rewrite Hp. cbn. rewrite Hp. cbn.
    by rewrite Hl, insert_snoc. }
  destruct (IH (progress_html q.1 q.2) s1 Hp1 Hl1) as [HA HB].
  split; [exact HA|]. rewrite HB. destruct qs as [|q' qs]; [done|].
  rewrite last_cons_cons.
  destruct (last (q' :: qs)) eqn:E; [done|by apply last_None in E].
Qed.

(** [X1] However many [scan_progress] events arrive in a row, the log
    gains a single line, which shows the counts of the last event. *)
Theorem X1_progress_one_line (q : Z * Z) (qs : list (Z * Z)) (s : State)
    (Hnone : logProgressElement s = None) :
  let s' := foldl (fun acc m => handleWebSocketMessage m acc) s
              ((fun p => ScanProgress p.1 p.2) <$> (q :: qs)) in
  logDiv s' = logDiv s ++ [progress_html (List.last (q :: qs) q).1
                                         (List.last (q :: qs) q).2] /\
  length (logDiv s') = S (length (logDiv s)) /\
  logProgressElement s' = Some (length (logDiv s)).
Proof.
  cbn [fmap list_fmap foldl handleWebSocketMessage]. cbv zeta.
  set (s1 := updateScanProgress q.1 q.2 s).
  assert (logProgressElement s1 = Some (length (logDiv s)) /\
          logDiv s1 = logDiv s ++ [progress_html q.1 q.2]) as [Hp1 Hl1].
  { unfold s1, updateScanProgress. rewrite Hnone. cbn. by rewrite insert_snoc. }
  destruct (progress_in_place (progress_html q.1 q.2) qs s1 (logDiv s) Hp1 Hl1)
    as [-> ->].
  rewrite (last_default (fun p => progress_html p.1 p.2) qs q).
  replace (List.last (q :: qs) q) with (List.last qs q) by (by destruct qs).
  split; [done|]. split; [|done].
  rewrite length_app. simpl. lia.
Qed.

Lemma X1_progress_one_line_witness :
  let s := run initial [Submit (sample_form "a"); WsOpen 0] in
  let s' := foldl (fun acc m => handleWebSocketMessage m acc) s
              [ScanProgress 5 1; ScanProgress 9 2] in
  logProgressElement s = None /\
  logDiv s' = logDiv s ++ [progress_html 9 2].
Proof.
  cbv zeta. split; [reflexivity|].
  exact (proj1 (X1_progress_one_line (5%Z, 1%Z) [(9%Z, 2%Z)]
           (run initial [Submit (sample_form "a"); WsOpen 0]) eq_refl)).
Defined.

Lemma foldl_appendSingleResult_progress (paths : list string) (s : State) :
  logProgressElement (foldl (fun acc path => appendSingleResult path acc) s paths)
  = logProgressElement s.
Proof.
  revert s. induction paths as [|p ps IH]; intros s; [done|].
  cbn [foldl]. rewrite IH. unfold appendSingleResult. by case_match.
Qed.

Lemma renderResults_frame (results : list string) (s : State) :
  let s' := renderResults results s in
  logDiv s' = logDiv s /\ logProgressElement s' = logProgressElement s /\
  storage s' = storage s.
Proof.
  unfold renderResults. destruct results as [|r rs].
  - by rewrite startsWithGt_textContent.
  - cbv zeta. cbn [logDiv logProgressElement storage set_controls].
    rewrite foldl_appendSingleResult_progress.
    by destruct (foldl_appendSingleResult_frame (r :: rs) (set_results EmptyString [] s))
      as (_ & _ & -> & _ & _ & ->).
Qed.

(** [X2] Whatever the page showed before, [scan_complete] leaves the
    result list equal to the results of the message and captures them for
    export, adds one line to the log and forgets the progress line.  The
    export button is shown when there is a result; with no result it is
    left as it was, the list is empty and no text takes its place. *)
Theorem X2_scan_complete_replaces_results
    (results : list string) (summary : string) (s : State) :
  let s' := handleWebSocketMessage (ScanComplete results summary) s in
  resultsItems s' = results /\ resultsText s' = EmptyString /\
  searchResults s' = results /\
  exportButtonHidden (controls s')
  = match results with
    | [] => exportButtonHidden (controls s)
    | _ => false
    end /\
  logDiv s' = logDiv s ++ [complete_html summary] /\
  logProgressElement s' = None /\
  sockets s' = sockets s /\ storage s' = storage s.
Proof.
  cbv zeta. cbn [handleWebSocketMessage].
  match goal with |- context [renderResults ?r ?t] =>
    destruct (renderResults_items r t) as (-> & -> & -> & -> & _ & ->);
    destruct (renderResults_frame r t) as (-> & -> & ->)
  end.
  done.
Qed.

(** ** Sockets *)

Lemma evolves_refl (so : Socket) : evolves so so.
Proof. by repeat split. Qed.

Lemma evolves_trans (a b c : Socket) : evolves a b -> evolves b c -> evolves a c.
Proof.
  intros (H1 & H2 & H3) (H4 & H5 & H6). repeat split.
  - lia.
  - congruence.
  - by etrans.
Qed.

Lemma sockets_evolve_refl (l : list Socket) : sockets_evolve l l.
Proof. intros i so H. eauto using evolves_refl. Qed.

Lemma sockets_evolve_trans (l1 l2 l3 : list Socket) :
  sockets_evolve l1 l2 -> sockets_evolve l2 l3 -> sockets_evolve l1 l3.
Proof.
  intros H12 H23 i so H. destruct (H12 i so H) as (so2 & H2 & E2).
  destruct (H23 i so2 H2) as (so3 & H3 & E3). eauto using evolves_trans.
Qed.

Lemma sockets_evolve_insert (l : list Socket) (j : nat) (x y : Socket) :
  l !! j = Some x -> evolves x y -> sockets_evolve l (<[j := y]> l).
Proof.
  intros Hj Hxy i so Hi. destruct (decide (i = j)) as [->|Hne].
  - exists y. rewrite list_lookup_insert_eq by (by eapply lookup_lt_Some).
    split; [done|]. congruence.
  - exists so. rewrite list_lookup_insert_ne by done. eauto using evolves_refl.
Qed.

Lemma sockets_evolve_snoc (l : list Socket) (x : Socket) :
  sockets_evolve l (l ++ [x]).
Proof.
  intros i so Hi. exists so. split; [|apply evolves_refl].
  rewrite lookup_app_l; [done|by eapply lookup_lt_Some].
Qed.

Lemma closeIfOpen_sockets (s : State) :
  sockets_evolve (sockets s) (sockets (closeIfOpen s)).
Proof.
  unfold closeIfOpen. repeat case_match; try apply sockets_evolve_refl.
  cbn [sockets set_sockets]. eapply sockets_evolve_insert; [done|].
  repeat split; cbn; [|done].
  match goal with H : readyState _ = OPEN |- _ => rewrite H end. simpl. lia.
Qed.

Lemma ws_send_sockets (c : Command) (s : State) :
  sockets_evolve (sockets s) (sockets (ws_send c s)).
Proof.
  unfold ws_send. repeat case_match; try apply sockets_evolve_refl.
  cbn [sockets set_sockets]. eapply sockets_evolve_insert; [done|].
  repeat split; cbn; [done|]. by apply prefix_app_r.
Qed.

Lemma handleWebSocketMessage_sockets (data : Message) (s : State) :
  sockets_evolve (sockets s) (sockets (handleWebSocketMessage data s)).
Proof.
  destruct data as [cats|msg|tid|path|sc fo|results summary|];
    cbn [handleWebSocketMessage].
  - destruct cats; apply sockets_evolve_refl.
  - apply (closeIfOpen_sockets (appendLog (error_html msg) false s)).
  - apply sockets_evolve_refl.
  - destruct (appendSingleResult_frame path s) as (-> & _). apply sockets_evolve_refl.
  - unfold updateScanProgress. repeat case_match; apply sockets_evolve_refl.
  - match goal with |- context [renderResults ?r ?t] =>
      destruct (renderResults_items r t) as (_ & _ & _ & -> & _) end.
    apply sockets_evolve_refl.
  - apply sockets_evolve_refl.
Qed.

(** [X3] Whatever happens, a socket stays in the list at its position,
    never returns to an earlier ready state, keeps the request it was
    made for, and keeps what was sent on it. *)
Theorem X3_sockets_only_move_forward (s : State) (e : Event) (i : nat) (so : Socket)
    (Hso : sockets s !! i = Some so) :
  exists so', sockets (step s e) !! i = Some so' /\
    rank (readyState so) <= rank (readyState so') /\
    so_payload so' = so_payload so /\
    so_sent so `prefix_of` so_sent so'.
Proof.
  assert (sockets_evolve (sockets s) (sockets (step s e))) as H;
    [|exact (H i so Hso)].
  clear. destruct e as [f| | |answer f|sel conf|index|j|j data|j failed];
    cbn [step].
  - apply sockets_evolve_snoc.
  - apply (closeIfOpen_sockets s).
  - apply sockets_evolve_refl.
  - unfold saveCurrentSearch. repeat case_match; apply sockets_evolve_refl.
  - unfold deleteSelectedSearch. case_match; apply sockets_evolve_refl.
  - apply sockets_evolve_refl.
  - destruct (sockets s !! j) as [so|] eqn:Hj; [|apply sockets_evolve_refl].
    case_decide as Hc; [|apply sockets_evolve_refl].
    unfold onopen.
    eapply sockets_evolve_trans; [|apply ws_send_sockets].
    cbn [sockets set_sockets appendLog resetUIBeforeSearch set_logDiv
         set_logProgressElement set_controls set_results set_searchResults].
    eapply sockets_evolve_insert; [done|].
    repeat split; cbn; [rewrite Hc; simpl; lia|done].
  - destruct (sockets s !! j) as [so|] eqn:Hj; [|apply sockets_evolve_refl].
    case_decide; [apply handleWebSocketMessage_sockets|apply sockets_evolve_refl].
  - destruct (sockets s !! j) as [so|] eqn:Hj; [|apply sockets_evolve_refl].
    case_decide; [apply sockets_evolve_refl|].
    cbv zeta. unfold onclose, onerror.
    destruct failed; cbn [controls set_sockets appendLog set_logDiv];
      destruct (scanControlsHidden (controls s));
      cbn [sockets set_sockets set_logProgressElement set_controls set_logDiv];
      (eapply sockets_evolve_insert; [done|]);
      repeat split; cbn; try done; destruct (readyState so); simpl; lia.
Qed.

Lemma X3_sockets_only_move_forward_witness :
  exists so', sockets (step (run initial [Submit (sample_form "a"); WsOpen 0]) ClickStop) !! 0
              = Some so' /\
    1 <= rank (readyState so') /\
    so_payload so' = buildSearchPayload (sample_form "a") /\
    [StartSearch (buildSearchPayload (sample_form "a"))] `prefix_of` so_sent so'.
Proof.
  exact (X3_sockets_only_move_forward
    (run initial [Submit (sample_form "a"); WsOpen 0]) ClickStop 0
    {| readyState := OPEN; so_payload := buildSearchPayload (sample_form "a");
       so_sent := [StartSearch (buildSearchPayload (sample_form "a"))] |} eq_refl).
Defined.

(** ** Which socket is written to *)

Lemma insert_app_here {A} (l k : list A) (a x : A) :
  <[length l := x]> (l ++ a :: k) = l ++ x :: k.
Proof.
  replace (length l) with (length l + 0) by lia. by rewrite insert_app_r.
Qed.

Lemma insert_app_next {A} (l k : list A) (a b x : A) :
  <[S (length l) := x]> (l ++ a :: b :: k) = l ++ a :: x :: k.
Proof.
  replace (S (length l)) with (length l + 1) by lia. by rewrite insert_app_r.
Qed.

Lemma lookup_app_next {A} (l k : list A) (a b : A) :
  (l ++ a :: b :: k) !! S (length l) = Some b.
Proof.
  replace (S (length l)) with (length l + 1) by lia.
  rewrite lookup_app_r by lia. by replace (length l + 1 - length l) with 1 by lia.
Qed.

(** The sockets and [ws] after the open event of a connecting socket. *)
Lemma step_open_sockets (s : State) (i j : nat) (so : Socket) :
  sockets s !! i = Some so -> readyState so = CONNECTING -> ws s = Some j ->
  ws (step s (WsOpen i)) = Some j /\
  sockets (step s (WsOpen i))
  = (let l1 := <[i := set_readyState OPEN so]> (sockets s) in
     match l1 !! j with
     | Some so' =>
         if decide (readyState so' = OPEN)
         then <[j := push_sent (StartSearch (so_payload so)) so']> l1 else l1
     | None => l1
     end).
Proof.
  intros Hso Hc Hws. cbn [step]. rewrite Hso, decide_True by exact Hc.
  unfold onopen, ws_send.
  cbn [ws sockets set_sockets appendLog resetUIBeforeSearch set_logDiv
       set_logProgressElement set_controls set_results set_searchResults].
  rewrite Hws. cbv zeta. by repeat case_match.
Qed.

(** [X4] Opening the socket of a search shows the scan controls in place
    of the form, empties the captured results and the result list, starts
    the log with the two lines of the search, and sends the request once,
    on that socket. *)
Theorem X4_open_sends_the_request (s0 : State) (f : Form) :
  let i := length (sockets s0) in
  let p := buildSearchPayload f in
  let s := run s0 [Submit f; WsOpen i] in
  sockets s = sockets s0 ++
    [{| readyState := OPEN; so_payload := p; so_sent := [StartSearch p] |}] /\
  ws s = Some i /\
  logDiv s = [searching_html p; "> TARGET PATH: " +:+ search_path p] /\
  logProgressElement s = None /\
  searchResults s = [] /\ resultsItems s = [] /\
  resultsText s = or_default (awaitingData s0) "> AWAITING DATA..." /\
  searchFormHidden (controls s) = true /\
  scanControlsHidden (controls s) = false /\
  stopButtonHidden (controls s) = false /\
  stopButtonDisabled (controls s) = false /\
  newSearchButtonHidden (controls s) = true /\
  exportButtonHidden (controls s) = true.
Proof.
  cbv zeta. unfold run. cbn [foldl].
  destruct (step_open_sockets (step s0 (Submit f)) (length (sockets s0))
              (length (sockets s0)) (new_socket (buildSearchPayload f)))
    as [Hws Hso]; [apply lookup_snoc_new|reflexivity|reflexivity|].
  split.
  { rewrite Hso. cbn [step startSearch sockets set_ws set_sockets addSearchToHistory
                      store_history set_storage]. cbv zeta.
    rewrite insert_snoc, lookup_snoc_new. cbn. rewrite decide_True by reflexivity.
    by rewrite insert_snoc. }
  split; [exact Hws|].
  cbn [step].
  change (sockets (startSearch f s0))
    with (sockets s0 ++ [new_socket (buildSearchPayload f)]).
  rewrite lookup_snoc_new, decide_True by reflexivity.
  unfold onopen.
  match goal with |- context [ws_send ?c ?t] =>
    destruct (ws_send_frame c t) as (_ & _ & -> & -> & -> & -> & -> & _) end.
  unfold ws_send. repeat case_match; done.
Qed.

(** [X5] When a second search is started before the socket of the first
    has opened, the request of the first search is never sent on its own
    socket: it is lost if that socket opens first, and it goes to the
    socket of the second search if that one opens first. *)
Theorem X5_second_start_takes_over (s0 : State) (f1 f2 : Form) :
  let i := length (sockets s0) in
  let p1 := buildSearchPayload f1 in
  let p2 := buildSearchPayload f2 in
  sockets (run s0 [Submit f1; Submit f2; WsOpen i; WsOpen (S i)])
  = sockets s0 ++
      [{| readyState := OPEN; so_payload := p1; so_sent := [] |};
       {| readyState := OPEN; so_payload := p2; so_sent := [StartSearch p2] |}] /\
  sockets (run s0 [Submit f1; Submit f2; WsOpen (S i); WsOpen i])
  = sockets s0 ++
      [{| readyState := OPEN; so_payload := p1; so_sent := [] |};
       {| readyState := OPEN; so_payload := p2;
          so_sent := [StartSearch p2; StartSearch p1] |}].
Proof.
  cbv zeta. unfold run. cbn [foldl].
  set (p1 := buildSearchPayload f1). set (p2 := buildSearchPayload f2).
  set (s2 := step (step s0 (Submit f1)) (Submit f2)).
  assert (sockets s2 = sockets s0 ++ [new_socket p1; new_socket p2]) as Hs2.
  { subst s2. cbn. by rewrite <- app_assoc. }
  assert (ws s2 = Some (S (length (sockets s0)))) as Hw2.
  { subst s2. cbn. rewrite length_app. simpl. f_equal. lia. }
  clearbody s2. split.
  - destruct (step_open_sockets s2 (length (sockets s0)) (S (length (sockets s0)))
                (new_socket p1)) as [Hw3 Hs3];
      [rewrite Hs2; apply list_lookup_middle; done|reflexivity|exact Hw2|].
    set (s3 := step s2 (WsOpen (length (sockets s0)))) in *. clearbody s3.
    cbv zeta in Hs3.
    rewrite Hs2, insert_app_here, lookup_app_next in Hs3. cbn in Hs3.
    rewrite decide_False in Hs3 by discriminate.
    destruct (step_open_sockets s3 (S (length (sockets s0))) (S (length (sockets s0)))
                (new_socket p2)) as [_ Hs4];
      [rewrite Hs3; apply lookup_app_next|reflexivity|exact Hw3|].
    cbv zeta in Hs4.
    rewrite Hs4, Hs3, insert_app_next, lookup_app_next. cbn.
    rewrite decide_True by reflexivity. by rewrite insert_app_next.
  - destruct (step_open_sockets s2 (S (length (sockets s0))) (S (length (sockets s0)))
                (new_socket p2)) as [Hw3 Hs3];
      [rewrite Hs2; apply lookup_app_next|reflexivity|exact Hw2|].
    set (s3 := step s2 (WsOpen (S (length (sockets s0))))) in *. clearbody s3.
    cbv zeta in Hs3.
    rewrite Hs2, insert_app_next, lookup_app_next in Hs3. cbn in Hs3.
    rewrite decide_True in Hs3 by reflexivity. rewrite insert_app_next in Hs3.
    destruct (step_open_sockets s3 (length (sockets s0)) (S (length (sockets s0)))
                (new_socket p1)) as [_ Hs4];
      [rewrite Hs3; apply list_lookup_middle; done|reflexivity|exact Hw3|].
    cbv zeta in Hs4.
    rewrite Hs4, Hs3, insert_app_here, lookup_app_next. cbn.
    rewrite decide_True by reflexivity. by rewrite insert_app_next.
Qed.

(** [X6] An [error] message closes the socket the variable [ws] points
    to.  When it arrives on another socket that is open, that socket
    stays open and the current one is closed in its place. *)
Theorem X6_error_closes_the_current_socket
    (s : State) (i j : nat) (si sj : Socket) (message : string)
    (Hws : ws s = Some j)
    (Hi : sockets s !! i = Some si) (Hiopen : readyState si = OPEN)
    (Hj : sockets s !! j = Some sj) (Hjopen : readyState sj = OPEN)
    (Hne : i <> j) :
  let s' := step s (WsMessage i (Error message)) in
  sockets s' !! i = Some si /\
  sockets s' !! j = Some (set_readyState CLOSING sj) /\
  logDiv s' = logDiv s ++ [error_html message].
Proof.
  cbv zeta. cbn [step]. rewrite Hi, decide_True by exact Hiopen.
  unfold onmessage. cbn [handleWebSocketMessage]. unfold closeIfOpen.
  cbn [ws sockets appendLog set_logDiv]. rewrite Hws, Hj, decide_True by exact Hjopen.
  cbn. rewrite list_lookup_insert_ne by done.
  rewrite list_lookup_insert_eq by (by eapply lookup_lt_Some). done.
Qed.

Lemma X6_error_closes_the_current_socket_witness :
  let s := run initial [Submit (sample_form "a"); Submit (sample_form "b");
                        WsOpen 1; WsOpen 0] in
  let s' := step s (WsMessage 0 (Error "disk not ready")) in
  (readyState <$> sockets s' !! 0) = Some OPEN /\
  (readyState <$> sockets s' !! 1) = Some CLOSING.
Proof.
  cbv zeta.
  destruct (X6_error_closes_the_current_socket
    (run initial [Submit (sample_form "a"); Submit (sample_form "b");
                  WsOpen 1; WsOpen 0]) 0 1
    {| readyState := OPEN; so_payload := buildSearchPayload (sample_form "a");
       so_sent := [] |}
    {| readyState := OPEN; so_payload := buildSearchPayload (sample_form "b");
       so_sent := [StartSearch (buildSearchPayload (sample_form "b"));
                   StartSearch (buildSearchPayload (sample_form "a"))] |}
    "disk not ready" eq_refl eq_refl eq_refl eq_refl eq_refl ltac:(discriminate))
    as (H0 & H1 & _).
  cbv zeta in H0, H1. rewrite H0, H1. split; reflexivity.
Defined.

(** ** Stopping *)

(** [X7] In every state, also with no socket or with a socket that is no
    longer open, [stopSearch] leaves the page cancelled and adds its line
    to the log; it never touches the result list, the captured results,
    the export button or the store, and no socket but the current one. *)
Theorem X7_stop_always_cancels (s : State) :
  let s' := stopSearch s in
  cancelled s' /\
  logDiv s' = logDiv s ++ [terminated_html] /\
  searchResults s' = searchResults s /\
  resultsItems s' = resultsItems s /\ resultsText s' = resultsText s /\
  exportButtonHidden (controls s') = exportButtonHidden (controls s) /\
  storage s' = storage s /\ ws s' = ws s /\
  (forall k, ws s <> Some k -> sockets s' !! k = sockets s !! k).
Proof.
  cbv zeta. unfold stopSearch.
  cbn [logDiv searchResults resultsItems resultsText controls storage ws sockets
       set_controls appendLog set_logDiv disable_stop exportButtonHidden].
  destruct (closeIfOpen_frame s) as (Hws & -> & -> & -> & -> & -> & -> & _).
  rewrite Hws. split; [|split; [done|do 6 (split; [done|])]].
  - split; [|done]. intros so. unfold current.
    cbn [ws sockets set_controls appendLog set_logDiv]. rewrite Hws.
    unfold closeIfOpen. destruct (ws s) as [j|]; [|done].
    cbn [mbind option_bind].
    destruct (sockets s !! j) as [sj|] eqn:Hj; [|by rewrite Hj].
    case_decide as Hd.
    + cbn [sockets set_sockets].
      rewrite list_lookup_insert_eq by (by eapply lookup_lt_Some).
      by intros [= <-].
    + rewrite Hj. by intros [= <-].
  - intros k Hk. unfold closeIfOpen. repeat case_match; try done.
    cbn [sockets set_sockets]. apply list_lookup_insert_ne. congruence.
Qed.

(** ** The progress line *)

Lemma progress_valid_frame (s s' : State) :
  logProgressElement s' = logProgressElement s ->
  length (logDiv s) <= length (logDiv s') ->
  progress_valid s -> progress_valid s'.
Proof. intros Hp Hl H i Hi. rewrite Hp in Hi. specialize (H i Hi). lia. Qed.

Lemma appendLog_valid (html : string) (clear : bool) (s : State) :
  progress_valid s -> progress_valid (appendLog html clear s).
Proof.
  intros H. destruct clear.
  - intros i Hi. discriminate.
  - eapply progress_valid_frame; [| |exact H]; [done|].
    cbn. rewrite length_app. lia.
Qed.

Lemma updateScanProgress_valid (scanned found : Z) (s : State) :
  progress_valid s ->
  progress_valid (updateScanProgress scanned found s) /\
  progress_html scanned found ∈ logDiv (updateScanProgress scanned found s).
Proof.
  intros H. unfold updateScanProgress.
  destruct (logProgressElement s) as [i|] eqn:Hp.
  - rewrite Hp. specialize (H i Hp). split.
    + intros k Hk. cbn in *. rewrite length_insert. congruence.
    + cbn. apply list_elem_of_lookup. exists i. by apply list_lookup_insert_eq.
  - cbn. rewrite insert_snoc. split.
    + intros k [= <-]. cbn. rewrite length_app. simpl. lia.
    + apply elem_of_app. right. left.
Qed.

Lemma closeIfOpen_log (s : State) :
  logProgressElement (closeIfOpen s) = logProgressElement s /\
  logDiv (closeIfOpen s) = logDiv s.
Proof. unfold closeIfOpen. by repeat case_match. Qed.

Lemma ws_send_log (c : Command) (s : State) :
  logProgressElement (ws_send c s) = logProgressElement s /\
  logDiv (ws_send c s) = logDiv s.
Proof. unfold ws_send. by repeat case_match. Qed.

Lemma handleWebSocketMessage_valid (data : Message) (s : State) :
  progress_valid s -> progress_valid (handleWebSocketMessage data s).
Proof.
  intros H.
  destruct data as [cats|msg|tid|path|sc fo|results summary|];
    cbn [handleWebSocketMessage].
  - by destruct cats.
  - destruct (closeIfOpen_log (appendLog (error_html msg) false s)) as [Hp Hl].
    eapply progress_valid_frame; [exact Hp|by rewrite Hl|].
    by apply appendLog_valid.
  - by apply appendLog_valid.
  - unfold appendSingleResult. by case_match.
  - by apply updateScanProgress_valid.
  - match goal with |- context [renderResults ?r ?t] =>
      destruct (renderResults_frame r t) as (Hl & Hp & _) end.
    eapply progress_valid_frame; [exact Hp|by rewrite Hl|].
    intros i Hi. discriminate.
  - done.
Qed.

Lemma step_valid (s : State) (e : Event) :
  progress_valid s -> progress_valid (step s e).
Proof.
  intros H. destruct e as [f| | |answer f|sel conf|index|j|j data|j failed];
    cbn [step].
  - exact H.
  - unfold stopSearch.
    destruct (closeIfOpen_log s) as [Hp Hl].
    intros i Hi. cbn in *. rewrite Hp in Hi. rewrite Hl, length_app.
    specialize (H i Hi). lia.
  - intros i Hi. discriminate.
  - unfold saveCurrentSearch. by repeat case_match.
  - unfold deleteSelectedSearch. by case_match.
  - exact H.
  - repeat case_match; try done. unfold onopen.
    match goal with |- context [ws_send ?c ?t] =>
      destruct (ws_send_log c t) as [Hp Hl] end.
    eapply progress_valid_frame; [exact Hp|by rewrite Hl|].
    apply appendLog_valid. intros i Hi. discriminate.
  - repeat case_match; try done. by apply handleWebSocketMessage_valid.
  - repeat case_match; try done; intros i Hi; discriminate.
Qed.

(** [X8] The progress line, when the page remembers one, is always a line
    of the log: no sequence of events leaves it pointing outside the log,
    so the counts of a [scan_progress] event always appear in the log. *)
Theorem X8_progress_line_stays_in_log
    (s : State) (es : list Event) (scanned found : Z)
    (Hvalid : progress_valid s) :
  progress_valid (run s es) /\
  progress_html scanned found ∈ logDiv (updateScanProgress scanned found (run s es)).
Proof.
  assert (progress_valid (run s es)) as H.
  { revert s Hvalid. induction es as [|e es IH]; intros s Hs; [done|].
    apply IH. by apply step_valid. }
  split; [exact H|]. by apply updateScanProgress_valid.
Qed.

Lemma X8_progress_line_stays_in_log_witness :
  progress_valid
    (run initial [Submit (sample_form "a"); WsOpen 0;
                  WsMessage 0 (ScanProgress 1 0); ClickNewSearch]).
Proof.
  refine (proj1 (X8_progress_line_stays_in_log initial _ 0%Z 0%Z _)).
  intros i Hi. discriminate.
Defined.

(** ** The store *)

(** [X9] After a search is started the first history entry is its
    request as JSON keeps it, every earlier entry has moved down by one, nothing is kept
    past the 15th place, and the history has at most 15 entries whatever
    was stored before. *)
Theorem X9_start_puts_request_first (f : Form) (s : State) (j : nat) :
  let s' := startSearch f s in
  historyEntry 0 s' = Some (json_request (buildSearchPayload f)) /\
  (S j < 15 -> historyEntry (S j) s' = historyEntry j s) /\
  (15 <= j -> historyEntry j s' = None) /\
  length (history s') <= 15.
Proof.
  cbv zeta. unfold historyEntry. rewrite history_startSearch.
  change MAX_HISTORY with 15.
  split; [done|]. split; [|split].
  - intros Hj. by rewrite lookup_take_lt.
  - intros Hj. by apply lookup_take_ge.
  - rewrite length_take. lia.
Qed.

(** [X10] Starting a search and then deleting the first history entry
    gives back the earlier history, cut to its first 14 entries. *)
Theorem X10_start_then_delete_first (f : Form) (s : State) :
  history (removeFromHistory 0 (startSearch f s)) = take 14 (history s) /\
  history (run s [Submit f; ClickHistoryDelete 0]) = take 14 (history s).
Proof.
  unfold run. cbn [foldl step].
  by rewrite history_removeFromHistory, history_startSearch.
Qed.

(** [X11] Deleting a history entry at an index past the end of the
    history leaves every entry where it was. *)
Theorem X11_history_delete_past_end (i : nat) (s : State)
    (Hpast : length (history s) <= i) :
  history (removeFromHistory i s) = history s /\
  searches (removeFromHistory i s) = searches s.
Proof.
  split; [|reflexivity].
  rewrite history_removeFromHistory.
  revert i Hpast. induction (history s) as [|x l IH]; intros i Hi; [done|].
  destruct i as [|i]; simpl in *; [lia|]. f_equal. apply IH. lia.
Qed.

Lemma X11_history_delete_past_end_witness :
  history (removeFromHistory 3 (run initial [Submit (sample_form "a")]))
  = history (run initial [Submit (sample_form "a")]).
Proof.
  refine (proj1 (X11_history_delete_past_end 3
                   (run initial [Submit (sample_form "a")]) _)).
  vm_compute. lia.
Defined.

(** [X12] Deleting a saved search, once confirmed, removes the selected
    name and no other, so that loading it finds no request; it does
    nothing when the confirmation is refused or when no name is
    selected. *)
Theorem X12_delete_saved_search (name : string) (confirmed : bool) (s : State)
    (Hname : name <> EmptyString) :
  let s' := deleteSelectedSearch name true s in
  (searches s' !! name = None /\
   forall request, loadSelectedSearch name s' <> Own request) /\
  (forall other, other <> name ->
     loadSelectedSearch other s' = loadSelectedSearch other s) /\
  (is_Some (searches s !! name) -> size (searches s') = size (searches s) - 1) /\
  history s' = history s /\
  deleteSelectedSearch name false s = s /\
  deleteSelectedSearch EmptyString confirmed s = s.
Proof.
  cbv zeta.
  pose proof (searches_deleteSelectedSearch name s Hname) as Hs.
  unfold loadSelectedSearch. rewrite Hs, lookup_delete_eq.
  split; [split; [done|intros request; by case_bool_decide]|].
  split; [intros other Hne; by rewrite lookup_delete_ne|].
  split; [intros Hin; rewrite map_size_delete_Some by done; lia|].
  unfold deleteSelectedSearch.
  apply truthy_nonempty in Hname. rewrite Hname. cbn.
  split; [reflexivity|split; reflexivity].
Qed.

Lemma X12_delete_saved_search_witness :
  searches (deleteSelectedSearch "logs" true
              (saveCurrentSearch (Some "logs") (sample_form "a") initial))
    !! "logs" = None.
Proof.
  refine (proj1 (proj1 (X12_delete_saved_search "logs" true _ _))). discriminate.
Defined.

(** [X13] Saving a search under a name that is not there yet makes the
    select offer the name, and deleting it there leaves the saved
    searches, and what the select offers, as they were.  This is for a
    name that its option carries as it is, in a store of such names. *)
Theorem X13_save_then_delete (name : string) (f : Form) (s : State)
    (Hname : name <> EmptyString) (Hproto : name <> "__proto__")
    (Hnew : searches s !! name = None)
    (Hsafe : markup_safe name = true)
    (Hstore : forall n, n ∈ dom (searches s) -> markup_safe n = true) :
  let saved := saveCurrentSearch (Some name) f s in
  (exists values, select_values saved = Some values /\ name ∈ values) /\
  searches (deleteSelectedSearch name true saved) = searches s /\
  select_values (deleteSelectedSearch name true saved) = select_values s.
Proof.
  cbv zeta.
  pose proof (searches_saveCurrentSearch name f s Hname Hproto) as Hs.
  assert (searches (deleteSelectedSearch name true (saveCurrentSearch (Some name) f s))
          = searches s) as Hd.
  { rewrite searches_deleteSelectedSearch, Hs, delete_insert_eq by done.
    by apply delete_id. }
  split; [by apply select_values_saved|].
  split; [exact Hd|unfold select_values; by rewrite Hd].
Qed.

Lemma X13_save_then_delete_witness :
  searches (deleteSelectedSearch "logs" true
              (saveCurrentSearch (Some "logs") (sample_form "a") initial))
  = searches initial.
Proof.
  refine (proj1 (proj2
    (X13_save_then_delete "logs" (sample_form "a") initial _ _ _ _ _)));
    [discriminate|discriminate|reflexivity|reflexivity|].
  intros n Hn. vm_compute in Hn. discriminate.
Defined.

Lemma step_storage_other (s : State) (e : Event) :
  writes_store e = false -> storage (step s e) = storage s.
Proof.
  destruct e as [f| | |answer f|sel conf|index|j|j data|j failed];
    try discriminate; intros _; cbn [step].
  - apply stopSearch_storage.
  - reflexivity.
  - repeat case_match; try done. by rewrite onopen_storage.
  - repeat case_match; try done. apply handleWebSocketMessage_storage.
  - repeat case_match; try done; by rewrite onclose_storage.
Qed.

(** [X14] Nothing that comes from a socket, and neither the stop button
    nor the new-search button, ever changes what is stored: the history
    and the saved searches are written only by a search start and by the
    save and delete buttons. *)
Theorem X14_server_never_writes_store (s : State) (es : list Event)
    (Hes : Forall (fun e => writes_store e = false) es) :
  storage (run s es) = storage s /\
  history (run s es) = history s /\ searches (run s es) = searches s.
Proof.
  assert (storage (run s es) = storage s) as H.
  { revert s. induction Hes as [|e es He _ IH]; intros s; [done|].
    unfold run in *. cbn [foldl]. rewrite IH. by apply step_storage_other. }
  unfold history, searches. by rewrite H.
Qed.

Lemma X14_server_never_writes_store_witness :
  let s := run initial [Submit (sample_form "a")] in
  history (run s [WsOpen 0; WsMessage 0 (ItemFound "x"); ClickStop; WsClose 0 false])
  = history s.
Proof.
  cbv zeta.
  refine (proj1 (proj2 (X14_server_never_writes_store _ _ _))).
  repeat constructor.
Defined.

(** ** Sizes *)

(** Rounding to a double keeps a whole number of kilobytes whole. *)
Lemma nearest_double_kilobytes (x : Z) :
  (1024 <= x)%Z -> (1024 | x)%Z ->
  nearest_double x = Infinity false \/
  exists b, nearest_double x = Int b /\ (1024 <= b)%Z /\ (1024 | b)%Z.
Proof.
  intros Hx Hd. unfold nearest_double.
  destruct (Z.ltb_spec x (2 ^ 53)) as [Hs|Hs]; [right; by exists x|].
  assert (53 <= Z.log2 x)%Z as Hlog by (apply Z.log2_le_pow2; lia).
  pose proof (Z.log2_spec x ltac:(lia)) as [Hlo _].
  set (e := (Z.log2 x - 52)%Z) in *.
  assert (1 <= e)%Z as He by lia.
  assert (0 < 2 ^ e)%Z as Hpos by (apply Z.pow_pos_nonneg; lia).
  assert (2 ^ e <= x)%Z as Hle.
  { etrans; [|exact Hlo]. apply Z.pow_le_mono_r; lia. }
  assert (1 <= x / 2 ^ e)%Z as Hq.
  { apply Z.div_le_lower_bound; lia. }
  pose proof (Z.div_mod x (2 ^ e) ltac:(lia)) as Hdm.
  pose proof (Z.mod_pos_bound x (2 ^ e) Hpos) as Hr.
  cbv zeta.
  set (q := (x / 2 ^ e)%Z) in *. set (r := (x mod 2 ^ e)%Z) in *.
  destruct (decide (e < 10)%Z) as [Hsmall|Hbig].
  - assert (r = 0)%Z as Hr0.
    { unfold r. apply Z.mod_divide; [lia|].
      etrans; [|exact Hd]. exists (2 ^ (10 - e))%Z.
      rewrite <- Z.pow_add_r by lia. by replace (10 - e + e)%Z with 10%Z by lia. }
    assert (0 < 2 ^ (e - 1))%Z by (apply Z.pow_pos_nonneg; lia).
    destruct (Z.ltb_spec r (2 ^ (e - 1))) as [_|]; [|lia].
    destruct (2 ^ 1024 <=? q * 2 ^ e)%Z; [by left|right].
    exists (q * 2 ^ e)%Z. split; [done|].
    replace (q * 2 ^ e)%Z with x by lia. done.
  - assert (2 ^ e = 2 ^ (e - 10) * 1024)%Z as Hpow.
    { change 1024%Z with (2 ^ 10)%Z. rewrite <- Z.pow_add_r by lia. f_equal. lia. }
    assert (0 < 2 ^ (e - 10))%Z by (apply Z.pow_pos_nonneg; lia).
    assert (forall q', q <= q' ->
      (if (2 ^ 1024 <=? q' * 2 ^ e) then Infinity false else Int (q' * 2 ^ e))
        = Infinity false \/
      exists b, (if (2 ^ 1024 <=? q' * 2 ^ e) then Infinity false else Int (q' * 2 ^ e))
                = Int b /\ 1024 <= b /\ (1024 | b))%Z as Hany.
    { intros q' Hq'. destruct (2 ^ 1024 <=? q' * 2 ^ e)%Z; [by left|right].
      eexists. split; [done|]. rewrite Hpow. split; [nia|].
      exists (q' * 2 ^ (e - 10))%Z. lia. }
    destruct (r <? 2 ^ (e - 1))%Z; [apply Hany; lia|].
    destruct (2 ^ (e - 1) <? r)%Z; [apply Hany; lia|].
    destruct (Z.even q); apply Hany; lia.
Qed.

(** [X15] A size filter of a built request is never zero, negative or a
    fraction of a kilobyte: when present it is [Infinity] or a whole
    number of kilobytes, at least one. *)
Theorem X15_sizes_whole_kilobytes (f : Form) (x : Number)
    (Hb : min_size (buildSearchPayload f) = Some x \/
          max_size (buildSearchPayload f) = Some x) :
  x = Infinity false \/
  exists b, x = Int b /\ (1024 <= b)%Z /\ (1024 | b)%Z.
Proof.
  assert (forall v u, convertSizeToBytes v u = Some x ->
            x = Infinity false \/
            exists b, x = Int b /\ (1024 <= b)%Z /\ (1024 | b)%Z) as H.
  { intros v u. unfold convertSizeToBytes.
    destruct v as [|[]|n]; cbn [not_number le_zero times orb];
      [discriminate|discriminate|intros [= <-]; by left|].
    destruct (Z.eqb_spec n 0) as [|Hn0]; [discriminate|].
    destruct (Z.leb_spec n 0) as [|Hn]; [discriminate|].
    destruct (Z.ltb_spec n 0) as [|_]; [lia|].
    cbn [orb]. intros [= <-].
    apply nearest_double_kilobytes.
    - destruct u; cbn [multipliers]; lia.
    - destruct u; cbn [multipliers].
      + exists n. lia.
      + exists (n * 1024)%Z. lia.
      + exists (n * 1024 * 1024)%Z. lia. }
  destruct Hb as [Hb|Hb]; eapply H; exact Hb.
Qed.

Lemma X15_sizes_whole_kilobytes_witness :
  min_size (buildSearchPayload (sample_form "a")) = Some (Int 2097152) /\
  (Int 2097152 = Infinity false \/
   exists b, Int 2097152 = Int b /\ (1024 <= b)%Z /\ (1024 | b)%Z).
Proof.
  split; [reflexivity|].
  apply (X15_sizes_whole_kilobytes (sample_form "a") (Int 2097152)).
  left. reflexivity.
Defined.

(** ** Trimming and the keywords text *)

Section Trimming.

Local Open Scope string_scope.

(** [X16] [trim] removes white space from the two ends of a text and
    nothing else, and trimming a second time changes nothing. *)
Theorem X16_trim_removes_only_outer_space (s : string) :
  (exists pre post, s = pre +:+ Js.trim s +:+ post /\
                    all_space pre = true /\ all_space post = true) /\
  trimmed (Js.trim s) /\
  Js.trim (Js.trim s) = Js.trim s.
Proof.
  split; [apply trim_split|].
  split; [apply trim_trimmed|apply trim_id, trim_trimmed].
Qed.

Lemma mem_char_app (c : ascii) (a b : string) :
  Js.mem_char c (a +:+ b) = Js.mem_char c a || Js.mem_char c b.
Proof.
  induction a as [|d a IH]; [done|].
  change (String d a +:+ b) with (String d (a +:+ b)). cbn [Js.mem_char].
  by destruct (Ascii.eqb c d).
Qed.

Lemma trim_no_comma (p : string) :
  Js.mem_char ","%char p = false -> Js.mem_char ","%char (Js.trim p) = false.
Proof.
  intros Hp. destruct (trim_split p) as (pre & post & Hs & _).
  rewrite Hs, !mem_char_app in Hp.
  by apply orb_false_elim in Hp as [_ [? _]%orb_false_elim].
Qed.

Lemma split_comma_plain (a : string) :
  Js.mem_char ","%char a = false -> Js.split_comma a = [a].
Proof.
  induction a as [|c a IH]; [done|]. cbn [Js.mem_char Js.split_comma].
  destruct (Ascii.eqb_spec ","%char c) as [<-|Hc]; [done|]. intros Ha.
  rewrite IH by done.
  by destruct c as [[] [] [] [] [] [] [] []].
Qed.

Lemma split_comma_app (a b : string) :
  Js.mem_char ","%char a = false ->
  Js.split_comma (a +:+ "," +:+ b) = a :: Js.split_comma b.
Proof.
  induction a as [|c a IH]; [done|].
  change (String c a +:+ "," +:+ b) with (String c (a +:+ "," +:+ b)).
  cbn [Js.mem_char Js.split_comma].
  destruct (Ascii.eqb_spec ","%char c) as [<-|Hc]; [done|]. intros Ha.
  rewrite IH by done.
  by destruct c as [[] [] [] [] [] [] [] []].
Qed.

Lemma trim_space_cons (e : string) : Js.trim (" " +:+ e) = Js.trim e.
Proof. reflexivity. Qed.

Lemma parse_list_join_tail (l : list string) :
  Forall entry_ok l ->
  List.filter Js.truthy
    (List.map Js.trim (Js.split_comma (" " +:+ Js.join ", " l)))
  = match l with [] => [] | _ => l end.
Proof.
  induction 1 as [|e l (Hne & Ht & Hc) Hl IH]; [done|].
  destruct l as [|e' l].
  - change (Js.join ", " [e]) with e.
    rewrite split_comma_plain by (by rewrite mem_char_app, Hc).
    cbn [List.map List.filter]. rewrite trim_space_cons, trim_id by done.
    by destruct e.
  - change (Js.join ", " (e :: e' :: l)) with (e +:+ ", " +:+ Js.join ", " (e' :: l)).
    change (" " +:+ e +:+ ", " +:+ Js.join ", " (e' :: l))
      with ((" " +:+ e) +:+ "," +:+ (" " +:+ Js.join ", " (e' :: l))).
    rewrite split_comma_app by (by rewrite mem_char_app, Hc).
    cbn [List.map List.filter]. rewrite trim_space_cons, trim_id by done.
    rewrite IH. by destruct e.
Qed.

Lemma parse_list_join (l : list string) :
  Forall entry_ok l -> parse_list (Js.join ", " l) = l.
Proof.
  intros Hl. destruct Hl as [|e l (Hne & Ht & Hc) Hl]; [done|].
  unfold parse_list. destruct l as [|e' l].
  - change (Js.join ", " [e]) with e. rewrite split_comma_plain by done.
    cbn [List.map List.filter]. rewrite trim_id by done. by destruct e.
  - change (Js.join ", " (e :: e' :: l))
      with (e +:+ "," +:+ (" " +:+ Js.join ", " (e' :: l))).
    rewrite split_comma_app by done.
    cbn [List.map List.filter]. rewrite trim_id by done.
    rewrite (parse_list_join_tail (e' :: l)) by done. by destruct e.
Qed.

Lemma parse_list_entries_ok (raw : string) : Forall entry_ok (parse_list raw).
Proof.
  rewrite parse_list_filter. apply Forall_forall. intros e He.
  apply list_elem_of_filter in He as [Hne He].
  apply list_elem_of_fmap in He as (p & -> & Hp).
  split; [done|]. split; [apply trim_trimmed|].
  apply trim_no_comma. by apply (split_comma_no_comma raw).
Qed.

End Trimming.

(** [X17] The keywords of a built request, written to the keywords field
    the way [populateForm] does ([join(', ')]) and read again by
    [buildSearchPayload], come back as they were; the same holds for the
    two other lists. *)
Theorem X17_keywords_text_round_trip (raw : string) (f : Form) :
  parse_list (Js.join ", " (parse_list raw)) = parse_list raw /\
  parse_list (Js.join ", " (keywords (buildSearchPayload f)))
  = keywords (buildSearchPayload f) /\
  parse_list (Js.join ", " (excluded_folders (buildSearchPayload f)))
  = excluded_folders (buildSearchPayload f) /\
  parse_list (Js.join ", " (file_extensions (buildSearchPayload f)))
  = file_extensions (buildSearchPayload f).
Proof. repeat split; apply parse_list_join, parse_list_entries_ok. Qed.

(** ** Escaped text and the report *)

Section Report.

Local Open Scope string_scope.

Lemma unescape_escape_char (c : ascii) (t : string) :
  unescape_go 0 (Html.escape_char c +:+ t) = String c (unescape_go 0 t).
Proof.
  destruct c as [[] [] [] [] [] [] [] []];
    cbv [Html.escape_char String.append]; cbn; try reflexivity;
    destruct t; reflexivity.
Qed.

Lemma unescape_escapeHTML (s : string) : unescape (Html.escapeHTML s) = s.
Proof.
  unfold unescape. induction s as [|c r IH]; [done|].
  cbn [Html.escapeHTML]. by rewrite unescape_escape_char, IH.
Qed.

(** [X18] The text [escapeHTML] writes reads back as the text it was
    given, so two different texts are never written the same way. *)
Theorem X18_escapeHTML_loses_nothing (a b : string) :
  unescape (Html.escapeHTML a) = a /\
  (Html.escapeHTML a = Html.escapeHTML b -> a = b).
Proof.
  split; [apply unescape_escapeHTML|].
  intros H. rewrite <- (unescape_escapeHTML a), <- (unescape_escapeHTML b).
  by rewrite H.
Qed.

Lemma count_char_items (c : ascii) (l : list string) :
  Html.count_char c
    (Js.join "" ((fun file => "<li>" +:+ Html.escapeHTML file +:+ "</li>") <$> l))
  = foldr (fun file n =>
             Html.count_char c ("<li>" +:+ Html.escapeHTML file +:+ "</li>") + n)
          0 l.
Proof.
  induction l as [|x l IH]; [done|]. destruct l as [|y l].
  - cbn. lia.
  - cbn [fmap list_fmap foldr] in *.
    match goal with |- Html.count_char c (Js.join "" (?a :: ?b :: ?r)) = _ =>
      change (Js.join "" (a :: b :: r)) with (a +:+ "" +:+ Js.join "" (b :: r)) end.
    rewrite !count_char_app. rewrite IH. rewrite !count_char_app. cbn. lia.
Qed.

(** [X19] The exported report has one list item for each captured result
    and no other: apart from what the date text holds, the number of [<]
    in it is 15 plus two for each result, whatever the paths are. *)
Theorem X19_report_one_item_per_result (reportDate : string) (s : State) :
  Html.count_char "<"%char (exportToHTML reportDate s)
  = 15 + Html.count_char "<"%char reportDate + 2 * length (searchResults s) /\
  Html.count_char ">"%char (exportToHTML reportDate s)
  = 15 + Html.count_char ">"%char reportDate + 2 * length (searchResults s).
Proof.
  unfold exportToHTML. rewrite !count_char_app, !count_char_items.
  assert (forall l : list string,
    foldr (fun file n =>
             Html.count_char "<"%char ("<li>" +:+ Html.escapeHTML file +:+ "</li>") + n)
          0 l = 2 * length l) as Hlt.
  { induction l as [|x l IH]; [done|]. cbn [foldr length].
    rewrite IH, !count_char_app, escapeHTML_no_lt. cbn. lia. }
  assert (forall l : list string,
    foldr (fun file n =>
             Html.count_char ">"%char ("<li>" +:+ Html.escapeHTML file +:+ "</li>") + n)
          0 l = 2 * length l) as Hgt.
  { induction l as [|x l IH]; [done|]. cbn [foldr length].
    rewrite IH, !count_char_app, escapeHTML_no_gt. cbn. lia. }
  rewrite Hlt, Hgt. split; cbn; lia.
Qed.

End Report.

(** ** What ends a session and what does not *)

Lemma handleWebSocketMessage_keeps_sockets (data : Message) (s : State) :
  is_error data = false ->
  sockets (handleWebSocketMessage data s) = sockets s /\
  ws (handleWebSocketMessage data s) = ws s.
Proof.
  destruct data as [cats|msg|tid|path|sc fo|results summary|];
    try discriminate; intros _; cbn [handleWebSocketMessage].
  - by destruct cats.
  - done.
  - by destruct (appendSingleResult_frame path s) as (-> & -> & _).
  - unfold updateScanProgress. by repeat case_match.
  - match goal with |- context [renderResults ?r ?t] =>
      by destruct (renderResults_items r t) as (_ & _ & _ & -> & -> & _) end.
  - done.
Qed.

(** [X20] No message but [error] ends a session: after [scan_complete],
    as after any other message, the socket is still open and current, and
    what arrives next on it is handled. *)
Theorem X20_only_error_closes (s : State) (i : nat) (data next : Message)
    (Hopen : open_on i s) (Hdata : is_error data = false) :
  let s' := step s (WsMessage i data) in
  sockets s' = sockets s /\ open_on i s' /\
  step s' (WsMessage i next) = handleWebSocketMessage next s'.
Proof.
  cbv zeta. rewrite step_message_open by exact Hopen.
  destruct (handleWebSocketMessage_keeps_sockets data s Hdata) as [Hso Hws].
  assert (open_on i (handleWebSocketMessage data s)) as Hopen'
    by (by apply (open_on_frame i s)).
  split; [exact Hso|]. split; [exact Hopen'|].
  by apply step_message_open.
Qed.

Lemma X20_only_error_closes_witness :
  let s := run initial [Submit (sample_form "a"); WsOpen 0] in
  let s' := step s (WsMessage 0 (ScanComplete ["x"] "1 item")) in
  step s' (WsMessage 0 (ItemFound "y")) = handleWebSocketMessage (ItemFound "y") s'.
Proof.
  cbv zeta.
  refine (proj2 (proj2 (X20_only_error_closes
    (run initial [Submit (sample_form "a"); WsOpen 0]) 0
    (ScanComplete ["x"] "1 item") (ItemFound "y") _ eq_refl))).
  split; [reflexivity|]. eexists. split; reflexivity.
Defined.

(** [X21] When the connection of a socket ends, the socket is closed, the
    log gains the connection error line if the connection failed and
    nothing otherwise, the progress line is forgotten, and the stop button
    gives way to the new-search button if the scan controls are shown;
    the results, captured and shown, stay. *)
Theorem X21_connection_end (s : State) (i : nat) (so : Socket) (failed : bool)
    (Hso : sockets s !! i = Some so) (Hlive : readyState so <> CLOSED) :
  let s' := step s (WsClose i failed) in
  sockets s' = <[i := set_readyState CLOSED so]> (sockets s) /\
  logDiv s' = logDiv s ++
    (if failed
     then ["<span class=" +:+ Html.dq +:+ "status-error" +:+ Html.dq
           +:+ ">> WEBSOCKET ERROR: Connection failed.</span>"]
     else []) /\
  logProgressElement s' = None /\
  searchResults s' = searchResults s /\ resultsItems s' = resultsItems s /\
  exportButtonHidden (controls s') = exportButtonHidden (controls s) /\
  stopButtonHidden (controls s')
  = (if scanControlsHidden (controls s) then stopButtonHidden (controls s) else true) /\
  newSearchButtonHidden (controls s')
  = (if scanControlsHidden (controls s) then newSearchButtonHidden (controls s)
     else false) /\
  ws s' = ws s /\ storage s' = storage s.
Proof.
  cbv zeta. cbn [step]. rewrite Hso, decide_False by exact Hlive.
  unfold onclose, onerror.
  destruct failed, (scanControlsHidden (controls s)) eqn:Hc; cbn; rewrite ?Hc;
    rewrite ?app_nil_r; done.
Qed.

Lemma X21_connection_end_witness :
  let s := run initial [Submit (sample_form "a")] in
  readyState <$> sockets (step s (WsClose 0 true)) !! 0 = Some CLOSED /\
  length (logDiv (step s (WsClose 0 true))) = 1.
Proof.
  cbv zeta.
  destruct (X21_connection_end (run initial [Submit (sample_form "a")]) 0
              (new_socket (buildSearchPayload (sample_form "a"))) true
              eq_refl ltac:(discriminate)) as (H1 & H2 & _).
  cbv zeta in H1, H2. rewrite H1, H2. split; reflexivity.
Defined.

(** [X22] Sockets are opened by search starts and by nothing else: after
    any sequence of events the page has one more socket for each start in
    the sequence, so nothing is ever retried or reconnected. *)
Theorem X22_one_socket_per_start (s : State) (es : list Event) :
  length (sockets (run s es))
  = length (sockets s) + length (List.filter is_submit es).
Proof.
  revert s. induction es as [|e es IH]; intros s; [simpl; lia|].
  unfold run in *. cbn [foldl List.filter]. rewrite IH.
  assert (length (sockets (step s e))
          = length (sockets s) + (if is_submit e then 1 else 0)) as ->.
  { destruct e as [f| | |answer f|sel conf|index|j|j data|j failed];
      cbn [step is_submit].
    - cbn. rewrite length_app. simpl. lia.
    - unfold stopSearch. cbn.
      destruct (closeIfOpen_frame s) as (_ & _ & _ & _ & _ & _ & _ & ->). lia.
    - cbn. lia.
    - unfold saveCurrentSearch. repeat case_match; cbn; lia.
    - unfold deleteSelectedSearch. case_match; cbn; lia.
    - cbn. lia.
    - repeat case_match; try lia. unfold onopen.
      match goal with |- context [ws_send ?c ?t] =>
        destruct (ws_send_frame c t) as (_ & _ & _ & _ & _ & _ & _ & ->) end.
      cbn. rewrite length_insert. lia.
    - repeat case_match; try lia. unfold onmessage.
      destruct data as [cats|msg|tid|path|sc fo|results summary|].
      + destruct (handleWebSocketMessage_keeps_sockets (Config cats) s eq_refl) as [-> _].
        lia.
      + cbn [handleWebSocketMessage].
        destruct (closeIfOpen_frame (appendLog (error_html msg) false s))
          as (_ & _ & _ & _ & _ & _ & _ & ->). cbn. lia.
      + destruct (handleWebSocketMessage_keeps_sockets (ScanStart tid) s eq_refl) as [-> _].
        lia.
      + destruct (handleWebSocketMessage_keeps_sockets (ItemFound path) s eq_refl) as [-> _].
        lia.
      + destruct (handleWebSocketMessage_keeps_sockets (ScanProgress sc fo) s eq_refl)
          as [-> _]. lia.
      + destruct (handleWebSocketMessage_keeps_sockets (ScanComplete results summary) s
                    eq_refl) as [-> _]. lia.
      + destruct (handleWebSocketMessage_keeps_sockets Other s eq_refl) as [-> _]. lia.
    - repeat case_match; try lia; unfold onclose, onerror;
        repeat case_match; cbn; rewrite length_insert; lia. }
  destruct (is_submit e); simpl; lia.
Qed.

(** ** Empty lists *)

Section Blank.

Local Open Scope string_scope.

Lemma trimStart_all_space (p : string) : all_space p = true -> Js.trimStart p = "".
Proof.
  induction p as [|c r IH]; [done|]. simpl.
  intros [Hc Hr]%andb_true_iff. rewrite Hc. by apply IH.
Qed.

Lemma all_space_app (a b : string) :
  all_space (a +:+ b) = all_space a && all_space b.
Proof.
  induction a as [|c a IH]; [done|].
  change (String c a +:+ b) with (String c (a +:+ b)). simpl.
  by rewrite IH, andb_assoc.
Qed.

Lemma trim_empty_iff (p : string) : Js.trim p = "" <-> all_space p = true.
Proof.
  split.
  - intros Hp. destruct (trim_split p) as (pre & post & Hs & Hpre & Hpost).
    rewrite Hs, Hp, !all_space_app, Hpre, Hpost. done.
  - intros Hp. unfold Js.trim. by rewrite trimStart_all_space.
Qed.

Lemma blank_app (a b : string) : blank (a +:+ b) = blank a && blank b.
Proof.
  induction a as [|c a IH]; [done|].
  change (String c a +:+ b) with (String c (a +:+ b)). simpl.
  by rewrite IH, andb_assoc.
Qed.

Lemma all_space_blank (p : string) : all_space p = true -> blank p = true.
Proof.
  induction p as [|c r IH]; [done|]. simpl.
  intros [Hc Hr]%andb_true_iff. by rewrite Hc, IH.
Qed.

Lemma blank_pieces (raw : string) :
  blank raw = true -> Forall (fun p => all_space p = true) (Js.split_comma raw).
Proof.
  induction raw as [|c r IH]; [by repeat constructor|]. simpl.
  intros [Hc Hr]%andb_true_iff. specialize (IH Hr).
  destruct (Js.is_comma c) eqn:Ec; [by constructor|].
  rewrite orb_false_r in Hc.
  destruct (Js.split_comma r) as [|p ps]; [by repeat constructor; simpl; rewrite Hc|].
  inversion IH as [|? ? Hp Hps]; subst. constructor; [|done].
  simpl. by rewrite Hc.
Qed.

Lemma pieces_blank (l : list string) :
  Forall (fun p => all_space p = true) l -> blank (Js.join "," l) = true.
Proof.
  induction 1 as [|p l Hp Hl IH]; [done|]. destruct l as [|q l].
  - by apply all_space_blank.
  - change (Js.join "," (p :: q :: l)) with (p +:+ "," +:+ Js.join "," (q :: l)).
    rewrite !blank_app, IH, all_space_blank by done. done.
Qed.

Lemma filter_truthy_nil (l : list string) :
  List.filter Js.truthy l = [] <-> Forall (fun e => e = "") l.
Proof.
  induction l as [|e l IH]; [by split; [constructor|]|].
  simpl. destruct e as [|c e]; simpl.
  - rewrite IH. split; [by constructor|]. by inversion 1.
  - split; [done|]. by inversion 1.
Qed.

End Blank.

(** [X23] A comma-separated field gives the empty list exactly when its
    text holds nothing but white space and commas; the empty text is one
    such. *)
Theorem X23_empty_list_iff_blank (raw : string) :
  parse_list raw = [] <-> blank raw = true.
Proof.
  unfold parse_list. rewrite filter_truthy_nil. split.
  - intros H. rewrite <- (split_comma_join raw). apply pieces_blank.
    apply Forall_forall. intros p Hp. apply trim_empty_iff.
    rewrite Forall_forall in H. apply H.
    apply list_elem_of_In, in_map, list_elem_of_In, Hp.
  - intros H. apply blank_pieces in H. apply Forall_forall. intros e He.
    apply list_elem_of_In, in_map_iff in He as (p & <- & Hp).
    apply trim_empty_iff. rewrite Forall_forall in H. by apply H, list_elem_of_In.
Qed.

(** ** Reading a number *)

Lemma nearest_double_nonneg (n : Z) :
  (0 <= n)%Z ->
  nearest_double n = Infinity false \/
  exists b, nearest_double n = Int b /\ (0 <= b)%Z.
Proof.
  intros Hn. unfold nearest_double.
  destruct (Z.ltb_spec n (2 ^ 53)) as [_|_]; [right; by exists n|].
  cbv zeta. set (e := (Z.log2 n - 52)%Z).
  assert (0 <= 2 ^ e)%Z as Hpos by apply Z.pow_nonneg, Z.lt_le_incl, Z.lt_0_2.
  assert (0 <= n / 2 ^ e)%Z as Hq by (apply Z_div_nonneg_nonneg; lia).
  set (q := (n / 2 ^ e)%Z) in *.
  assert (forall q', q <= q' ->
    (if (2 ^ 1024 <=? q' * 2 ^ e) then Infinity false else Int (q' * 2 ^ e))
      = Infinity false \/
    exists b, (if (2 ^ 1024 <=? q' * 2 ^ e) then Infinity false else Int (q' * 2 ^ e))
              = Int b /\ 0 <= b)%Z as Hany.
  { intros q' Hq'. destruct (2 ^ 1024 <=? q' * 2 ^ e)%Z; [by left|right].
    eexists. split; [done|]. nia. }
  destruct (_ <? 2 ^ (e - 1))%Z; [apply Hany; lia|].
  destruct (2 ^ (e - 1) <? _)%Z; [apply Hany; lia|].
  destruct (Z.even q); apply Hany; lia.
Qed.

(** [X24] [parseInt] reads a whole number written in decimal as the
    double nearest to it, which is the number itself below 2^53, and
    ignores what follows the digits.  With a minus sign in front it gives
    the opposite number, and a size read so is [null]. *)
Theorem X24_parseInt_reads_decimal (n : N) (rest : string) (unit : SizeUnit)
    (Hrest : forall c, Js.first_char rest = Some c -> Js.digit c = None) :
  Js.parseInt (pretty n +:+ rest) = nearest_double (Z.of_N n) /\
  ((Z.of_N n < 2 ^ 53)%Z -> Js.parseInt (pretty n +:+ rest) = Int (Z.of_N n)) /\
  Js.parseInt ("-" +:+ pretty n +:+ rest) = negate (nearest_double (Z.of_N n)) /\
  convertSizeToBytes (Js.parseInt ("-" +:+ pretty n +:+ rest)) unit = None.
Proof.
  assert (Js.parseInt ("-" +:+ pretty n +:+ rest)
          = negate (nearest_double (Z.of_N n))) as Hneg.
  { change (Js.parseInt ("-" +:+ pretty n +:+ rest))
      with (negate (Js.number_of (Js.digits false 0 (pretty n +:+ rest)))).
    by rewrite digits_pretty. }
  split; [by apply parseInt_pretty|].
  split; [intros Hn; rewrite parseInt_pretty by done; by apply nearest_double_small|].
  split; [exact Hneg|]. rewrite Hneg.
  destruct (nearest_double_nonneg (Z.of_N n)) as [->|(b & -> & Hb)]; [lia|done|].
  unfold convertSizeToBytes. cbn [negate not_number le_zero].
  destruct (Z.eqb_spec (- b) 0) as [|_]; [done|].
  by destruct (Z.leb_spec (- b) 0) as [_|]; [|lia].
Qed.

Lemma X24_parseInt_reads_decimal_witness :
  Js.parseInt (pretty 42%N +:+ "px") = nearest_double 42.
Proof.
  refine (proj1 (X24_parseInt_reads_decimal 42 "px" KB _)).
  intros c [= <-]. reflexivity.
Defined.
